(** * Point-tracking chart script: a shallow embedding of
    [scripts/generate_chart.py] and the properties of its data synthesizer,
    chart renderer, data exporter and orchestration.

    Python values are modelled by [pyval]; a [dict] is an association list in
    insertion order.  Code that can raise returns a [result]; code that
    touches the file system or the console runs in the state-and-exception
    monad [py] over a [world]. *)

From Stdlib Require Import ZArith String Ascii List Lia.
From Stdlib Require QArith.
From stdpp Require Import base option list gmap strings.
Import ListNotations.

Local Open Scope string_scope.
Local Open Scope list_scope.
Local Open Scope Z_scope.

(** ** Exceptions and results *)

Inductive exn : Type :=
  | KeyError (key : string)
  | ValueError (msg : string)
  | TypeError (msg : string)
  | OverflowError (msg : string)
  | FileNotFoundError (path : string)
  | FileExistsError (path : string)
  | IsADirectoryError (path : string)
  | NotADirectoryError (path : string)
  | PermissionError (path : string)
  | RecursionError.

Inductive result (A : Type) : Type :=
  | Ok (a : A)
  | Raise (e : exn).

Arguments Ok {A} a.
Arguments Raise {A} e.

#[global] Instance result_ret : MRet result := fun _ a => Ok a.
#[global] Instance result_bind : MBind result := fun _ _ f m =>
  match m with
  | Ok a => f a
  | Raise e => Raise e
  end.

#[global] Instance result_fmap : FMap result := fun _ _ f m =>
  match m with
  | Ok a => Ok (f a)
  | Raise e => Raise e
  end.

(** A [for x in xs: body] loop whose body updates the loop state [s] and may
    raise: the first exception leaves the loop. *)
Fixpoint for_each {A S : Type} (xs : list A) (body : A -> S -> result S) (s : S)
  : result S :=
  match xs with
  | [] => Ok s
  | x :: xs' => s' ← body x s; for_each xs' body s'
  end.

(** [range(n)] *)
Definition range (n : nat) : list Z := map Z.of_nat (seq 0 n).

(** ** Python values *)

#[warning="-register-all"]
Inductive pyval : Type :=
  | PInt (z : Z)
  | PStr (s : string)
  | PList (l : list pyval)
  | PDict (d : list (string * pyval)).

Abbreviation dict := (list (string * pyval)).

(** [d[key]], raising [KeyError] when the key is absent. *)
Fixpoint getitem (d : dict) (key : string) : result pyval :=
  match d with
  | [] => Raise (KeyError key)
  | (k, v) :: d' => if String.eqb k key then Ok v else getitem d' key
  end.

Definition keys (d : dict) : list string := map fst d.

(** [v == s] for a string literal [s]. *)
Definition py_eq_str (v : pyval) (s : string) : bool :=
  match v with
  | PStr t => String.eqb t s
  | _ => false
  end.

(** ** Decimal formatting, as [%d] and [%0Nd] do *)

Definition digit_char (d : Z) : ascii := ascii_of_N (48 + Z.to_N d).

Fixpoint decimal_aux (fuel : nat) (n : Z) (acc : string) : string :=
  let acc' := String (digit_char (n mod 10)) acc in
  match fuel with
  | O => acc'
  | S fuel' => if n <? 10 then acc' else decimal_aux fuel' (n / 10) acc'
  end.

(** Decimal digits of [n >= 0]. *)
Definition decimal (n : Z) : string :=
  decimal_aux (Z.to_nat (Z.log2 n)) n "".

Fixpoint zeros (n : nat) : string :=
  match n with
  | O => ""
  | S n' => String "0" (zeros n')
  end.

(** [%0{width}d] of [n >= 0]. *)
Definition pad (width : nat) (n : Z) : string :=
  let s := decimal n in
  zeros (width - String.length s) +:+ s.

(** [repr] of an [int]. *)
Definition int_repr (z : Z) : string :=
  if z <? 0 then String "-" (decimal (- z)) else decimal z.

(** ** [datetime] and [timedelta], after the standard library's algorithms *)

Module Datetime.

Record datetime : Type := mk_datetime {
  year : Z; month : Z; day : Z;
  hour : Z; minute : Z; second : Z; microsecond : Z
}.

Record timedelta : Type := mk_timedelta {
  days : Z; seconds : Z; microseconds : Z
}.

Definition MAXORDINAL : Z := 3652059.

Definition is_leap (y : Z) : bool :=
  (y mod 4 =? 0) && (negb (y mod 100 =? 0) || (y mod 400 =? 0)).

Definition DAYS_IN_MONTH : list Z :=
  [-1; 31; 28; 31; 30; 31; 30; 31; 31; 30; 31; 30; 31].

Definition DAYS_BEFORE_MONTH : list Z :=
  [-1; 0; 31; 59; 90; 120; 151; 181; 212; 243; 273; 304; 334].

Definition table (t : list Z) (i : Z) : Z := nth (Z.to_nat i) t 0.

Definition days_before_year (y : Z) : Z :=
  let y := y - 1 in y * 365 + y / 4 - y / 100 + y / 400.

Definition days_in_month (y m : Z) : Z :=
  if (m =? 2) && is_leap y then 29 else table DAYS_IN_MONTH m.

Definition days_before_month (y m : Z) : Z :=
  table DAYS_BEFORE_MONTH m + (if (2 <? m) && is_leap y then 1 else 0).

(** Proleptic Gregorian ordinal of a date: 0001-01-01 is day 1. *)
Definition ymd2ord (y m d : Z) : Z :=
  days_before_year y + days_before_month y m + d.

Definition DI400Y : Z := days_before_year 401.
Definition DI100Y : Z := days_before_year 101.
Definition DI4Y : Z := days_before_year 5.

(** The inverse of [ymd2ord]. *)
Definition ord2ymd (n : Z) : Z * Z * Z :=
  let n := n - 1 in
  let n400 := n / DI400Y in
  let n := n mod DI400Y in
  let y := n400 * 400 + 1 in
  let n100 := n / DI100Y in
  let n := n mod DI100Y in
  let n4 := n / DI4Y in
  let n := n mod DI4Y in
  let n1 := n / 365 in
  let n := n mod 365 in
  let y := y + n100 * 100 + n4 * 4 + n1 in
  if (n1 =? 4) || (n100 =? 4) then (y - 1, 12, 31)
  else
    let leapyear := (n1 =? 3) && (negb (n4 =? 24) || (n100 =? 3)) in
    let m := Z.shiftr (n + 50) 5 in
    let preceding :=
      table DAYS_BEFORE_MONTH m + (if (2 <? m) && leapyear then 1 else 0) in
    if n <? preceding then
      let m := m - 1 in
      let preceding :=
        preceding
        - (table DAYS_IN_MONTH m + (if (m =? 2) && leapyear then 1 else 0)) in
      (y, m, n - preceding + 1)
    else (y, m, n - preceding + 1).

Definition toordinal (t : datetime) : Z := ymd2ord (year t) (month t) (day t).

(** [date.weekday()]: Monday is 0. *)
Definition weekday (t : datetime) : Z := (toordinal t + 6) mod 7.

(** Day of the year, from 1. *)
Definition yday (t : datetime) : Z :=
  days_before_month (year t) (month t) + day t.

(** [timedelta(weeks=w)] *)
Definition timedelta_weeks (w : Z) : timedelta := mk_timedelta (7 * w) 0 0.

(** [timedelta(days, seconds, microseconds)] brought to normal form:
    [0 <= seconds < 86400] and [0 <= microseconds < 1000000]. *)
Definition normalize (d s us : Z) : timedelta :=
  let s := s + us / 1000000 in
  let us := us mod 1000000 in
  let d := d + s / 86400 in
  let s := s mod 86400 in
  mk_timedelta d s us.

(** [datetime + timedelta] *)
Definition add (t : datetime) (delta : timedelta) : result datetime :=
  let self :=
    normalize (toordinal t)
              (hour t * 3600 + minute t * 60 + second t) (microsecond t) in
  let sum :=
    normalize (days self + days delta) (seconds self + seconds delta)
              (microseconds self + microseconds delta) in
  let hh := seconds sum / 3600 in
  let rem := seconds sum mod 3600 in
  let mm := rem / 60 in
  let ss := rem mod 60 in
  if (0 <? days sum) && (days sum <=? MAXORDINAL) then
    let '(y, m, d) := ord2ymd (days sum) in
    Ok (mk_datetime y m d hh mm ss (microseconds sum))
  else Raise (OverflowError "date value out of range").

(** [datetime.isoformat()] with the default separator and time spec. *)
Definition isoformat (t : datetime) : string :=
  pad 4 (year t) +:+ "-" +:+ pad 2 (month t) +:+ "-" +:+ pad 2 (day t)
  +:+ "T" +:+ pad 2 (hour t) +:+ ":" +:+ pad 2 (minute t) +:+ ":"
  +:+ pad 2 (second t)
  +:+ (if microsecond t =? 0 then "" else "." +:+ pad 6 (microsecond t)).

(** One [strftime] directive.  [%U] is the week of the year with Sunday as
    the first day of the week: the days before the first Sunday are week 0. *)
Definition directive (t : datetime) (c : ascii) : string :=
  if Ascii.eqb c "Y" then pad 4 (year t)
  else if Ascii.eqb c "m" then pad 2 (month t)
  else if Ascii.eqb c "d" then pad 2 (day t)
  else if Ascii.eqb c "H" then pad 2 (hour t)
  else if Ascii.eqb c "M" then pad 2 (minute t)
  else if Ascii.eqb c "S" then pad 2 (second t)
  else if Ascii.eqb c "U" then
    let wday := (weekday t + 1) mod 7 in
    pad 2 ((yday t - 1 + 7 - wday) / 7)
  else if Ascii.eqb c "%" then "%"
  else String "%" (String c "").

(** [datetime.strftime(format)] *)
Fixpoint strftime (t : datetime) (format : string) : string :=
  match format with
  | "" => ""
  | String "%" (String c rest) => directive t c +:+ strftime t rest
  | String c rest => String c (strftime t rest)
  end.

End Datetime.

(** ** The data synthesizer *)

Definition individuals : list dict :=
  [ [("name", PStr "Alice"); ("color", PStr "#FF6B6B")];
    [("name", PStr "Bob"); ("color", PStr "#4ECDC4")];
    [("name", PStr "Charlie"); ("color", PStr "#45B7D1")];
    [("name", PStr "Diana"); ("color", PStr "#FFA726")];
    [("name", PStr "Eve"); ("color", PStr "#AB47BC")] ].

Definition start_date : Datetime.datetime :=
  Datetime.mk_datetime 2024 1 1 0 0 0 0.

(** The points an individual gains in week [week]: the [if]/[elif] chain of
    the inner loop. *)
Definition increment (name : pyval) (week : Z) : Z :=
  if py_eq_str name "Alice" then 15 + week * 2 + week mod 3 * 5
  else if py_eq_str name "Bob" then 12 + week * 3 + week mod 2 * 3
  else if py_eq_str name "Charlie" then 18 + week * 1 + week mod 4 * 7
  else if py_eq_str name "Diana" then 10 + week * 4 + week mod 5 * 2
  else 20 + week * 2 + week mod 3 * 4.

(** The body of the inner loop; the loop state is [(points, data)]. *)
Definition week_body (individual : dict) (week : Z) (st : Z * list dict)
  : result (Z * list dict) :=
  let '(points, data) := st in
  week_date ← Datetime.add start_date (Datetime.timedelta_weeks week);
  name ← getitem individual "name";
  let points := points + increment name week in
  name ← getitem individual "name";
  color ← getitem individual "color";
  Ok (points,
      data ++ [ [ ("individual", name);
                  ("color", color);
                  ("week", PStr (Datetime.strftime week_date "%Y-W%U"));
                  ("date", PStr (Datetime.isoformat week_date));
                  ("cumulative_points", PInt points) ] ]).

(** The body of the outer loop: [points] restarts from 0, [data] goes on. *)
Definition individual_body (individual : dict) (data : list dict)
  : result (list dict) :=
  st ← for_each (range 12) (week_body individual) (0, data);
  Ok (snd st).

Definition generate_sample_data : result (list dict) :=
  for_each individuals individual_body [].

(** ** The JSON encoder ([json.dump]) *)

Module Json.

Definition DQUOTE : ascii := "034".

Definition hex_char (d : Z) : ascii :=
  if d <? 10 then digit_char d else ascii_of_N (87 + Z.to_N d).

(** [\uXXXX] for the code point [n]. *)
Definition escape_u (n : Z) : string :=
  String "\" (String "u"
    (String (hex_char (n / 4096 mod 16)) (String (hex_char (n / 256 mod 16))
      (String (hex_char (n / 16 mod 16)) (String (hex_char (n mod 16)) ""))))).

(** The replacement of one character under [ensure_ascii=True]: the short
    escapes, [\uXXXX] for every other character outside [' '..'~'], and the
    character itself otherwise. *)
Definition escape_char (c : ascii) : string :=
  let n := Z.of_N (N_of_ascii c) in
  if n =? 92 then "\\"
  else if n =? 34 then String "\" (String DQUOTE "")
  else if n =? 8 then "\b"
  else if n =? 12 then "\f"
  else if n =? 10 then "\n"
  else if n =? 13 then "\r"
  else if n =? 9 then "\t"
  else if (n <? 32) || (126 <? n) then escape_u n
  else String c "".

Fixpoint escape (s : string) : string :=
  match s with
  | "" => ""
  | String c s' => escape_char c +:+ escape s'
  end.

Definition encode_string (s : string) : string :=
  String DQUOTE (escape s +:+ String DQUOTE "").

Fixpoint spaces (n : nat) : string :=
  match n with
  | O => ""
  | S n' => String " " (spaces n')
  end.

Definition LF : string := String (ascii_of_N 10) "".

(** A new line followed by the indentation of nesting depth [level]. *)
Definition newline_indent (indent level : nat) : string :=
  LF +:+ spaces (indent * level).

Fixpoint join (sep : string) (chunks : list string) : string :=
  match chunks with
  | [] => ""
  | [c] => c
  | c :: cs => c +:+ sep +:+ join sep cs
  end.

(** The text of [v] at nesting depth [level], for an integer [indent]:
    items are separated by [","] and a new line, keys from values by
    [": "]; an empty list is ["[]"] and an empty dict ["{}"]. *)
Fixpoint encode (indent level : nat) (v : pyval) : string :=
  match v with
  | PInt z => int_repr z
  | PStr s => encode_string s
  | PList [] => "[]"
  | PList l =>
      "[" +:+ newline_indent indent (S level)
      +:+ join ("," +:+ newline_indent indent (S level))
               (map (encode indent (S level)) l)
      +:+ newline_indent indent level +:+ "]"
  | PDict [] => "{}"
  | PDict d =>
      "{" +:+ newline_indent indent (S level)
      +:+ join ("," +:+ newline_indent indent (S level))
               (map (fun kv => encode_string (fst kv) +:+ ": "
                               +:+ encode indent (S level) (snd kv)) d)
      +:+ newline_indent indent level +:+ "}"
  end.

(** The text [json.dump(v, f, indent=indent)] writes. *)
Definition dumps (indent : nat) (v : pyval) : string := encode indent 0 v.

(** ** The JSON decoder ([json.loads])

    The decoder reads the values a [pyval] can hold: strings, integers,
    arrays and objects.  Literals outside [pyval] (floats, [true], [false],
    [null]) and [\uXXXX] escapes above code point 255 are refused. *)

Definition is_space (c : ascii) : bool :=
  let n := N_of_ascii c in
  (N.eqb n 32 || N.eqb n 9 || N.eqb n 10 || N.eqb n 13)%bool.

Fixpoint skip_ws (s : string) : string :=
  match s with
  | String c s' => if is_space c then skip_ws s' else s
  | "" => ""
  end.

Definition digit_value (c : ascii) : option Z :=
  let n := Z.of_N (N_of_ascii c) in
  if (48 <=? n) && (n <=? 57) then Some (n - 48) else None.

Definition hex_value (c : ascii) : option Z :=
  let n := Z.of_N (N_of_ascii c) in
  if (48 <=? n) && (n <=? 57) then Some (n - 48)
  else if (97 <=? n) && (n <=? 102) then Some (n - 87)
  else if (65 <=? n) && (n <=? 70) then Some (n - 55)
  else None.

(** The digits at the front of [s], read onto [acc]. *)
Fixpoint scan_digits (s : string) (acc : Z) : Z * string :=
  match s with
  | String c s' =>
      match digit_value c with
      | Some d => scan_digits s' (acc * 10 + d)
      | None => (acc, s)
      end
  | "" => (acc, "")
  end.

Definition invalid {A} : result A := Raise (ValueError "JSONDecodeError").

(** An integer: an optional minus sign, then [0] or a digit string that does
    not start with [0]. *)
Definition scan_int (s : string) : result (pyval * string) :=
  let '(neg, body) :=
    match s with
    | String "-" s' => (true, s')
    | _ => (false, s)
    end in
  match body with
  | String c rest =>
      match digit_value c with
      | Some 0 => Ok (PInt 0, rest)
      | Some d =>
          let '(n, rest') := scan_digits rest d in
          Ok (PInt (if neg then - n else n), rest')
      | None => invalid
      end
  | "" => invalid
  end.

Definition scan_u (s : string) : result (ascii * string) :=
  match s with
  | String a (String b (String c (String d rest))) =>
      match hex_value a, hex_value b, hex_value c, hex_value d with
      | Some a, Some b, Some c, Some d =>
          let n := a * 4096 + b * 256 + c * 16 + d in
          if n <? 256 then Ok (ascii_of_N (Z.to_N n), rest) else invalid
      | _, _, _, _ => invalid
      end
  | _ => invalid
  end.

Definition unescape (c : ascii) : option ascii :=
  let n := N_of_ascii c in
  if N.eqb n 34 then Some c
  else if N.eqb n 92 then Some c
  else if N.eqb n 47 then Some c
  else if N.eqb n 98 then Some (ascii_of_N 8)
  else if N.eqb n 102 then Some (ascii_of_N 12)
  else if N.eqb n 110 then Some (ascii_of_N 10)
  else if N.eqb n 114 then Some (ascii_of_N 13)
  else if N.eqb n 116 then Some (ascii_of_N 9)
  else None.

(** The rest of a string literal, after its opening quote.  Control
    characters are refused, as the strict decoder does. *)
Fixpoint scan_string (fuel : nat) (s : string) : result (string * string) :=
  match fuel with
  | O => invalid
  | S fuel' =>
      match s with
      | "" => invalid
      | String c s' =>
          if Ascii.eqb c DQUOTE then Ok ("", s')
          else if Ascii.eqb c "\" then
            match s' with
            | String "u" s'' =>
                '(ch, rest) ← scan_u s'';
                '(str, rest') ← scan_string fuel' rest;
                Ok (String ch str, rest')
            | String e s'' =>
                match unescape e with
                | Some ch =>
                    '(str, rest') ← scan_string fuel' s'';
                    Ok (String ch str, rest')
                | None => invalid
                end
            | "" => invalid
            end
          else if (N_of_ascii c <? 32)%N then invalid
          else
            '(str, rest') ← scan_string fuel' s';
            Ok (String c str, rest')
      end
  end.

(** [d[key] = v] on an insertion-ordered dict: a present key keeps its
    position, a new key goes last. *)
Fixpoint dict_set (d : dict) (key : string) (v : pyval) : dict :=
  match d with
  | [] => [(key, v)]
  | (k, x) :: d' =>
      if String.eqb k key then (k, v) :: d' else (k, x) :: dict_set d' key v
  end.

(** One member of an object, ["key": value], read with the value scanner
    [scan]. *)
Definition scan_member (scan : string -> result (pyval * string)) (s : string)
  : result (string * pyval * string) :=
  match s with
  | String c rest =>
      if Ascii.eqb c DQUOTE then
        '(k, rest1) ← scan_string (String.length rest) rest;
        match skip_ws rest1 with
        | String ":" rest2 =>
            '(v, rest3) ← scan (skip_ws rest2);
            Ok (k, v, rest3)
        | _ => invalid
        end
      else invalid
  | "" => invalid
  end.

(** The rest of an array after one of its items: a closing bracket, or a
    comma and one more item. *)
Fixpoint scan_items (scan : string -> result (pyval * string)) (n : nat)
    (acc : list pyval) (s : string) : result (pyval * string) :=
  match n with
  | O => invalid
  | S n' =>
      match skip_ws s with
      | String "]" rest => Ok (PList acc, rest)
      | String "," rest =>
          '(v, rest') ← scan (skip_ws rest);
          scan_items scan n' (acc ++ [v]) rest'
      | _ => invalid
      end
  end.

(** The rest of an object after one of its members. *)
Fixpoint scan_members (scan : string -> result (pyval * string)) (n : nat)
    (acc : dict) (s : string) : result (pyval * string) :=
  match n with
  | O => invalid
  | S n' =>
      match skip_ws s with
      | String "}" rest => Ok (PDict acc, rest)
      | String "," rest =>
          '(k, v, rest') ← scan_member scan (skip_ws rest);
          scan_members scan n' (dict_set acc k v) rest'
      | _ => invalid
      end
  end.

(** One value; [fuel] bounds the nesting depth. *)
Fixpoint scan_value (fuel : nat) (s : string) : result (pyval * string) :=
  match fuel with
  | O => invalid
  | S fuel' =>
      match s with
      | String "[" rest =>
          match skip_ws rest with
          | String "]" rest' => Ok (PList [], rest')
          | rest' =>
              '(v, rest'') ← scan_value fuel' rest';
              scan_items (scan_value fuel') (String.length rest'') [v] rest''
          end
      | String "{" rest =>
          match skip_ws rest with
          | String "}" rest' => Ok (PDict [], rest')
          | rest' =>
              '(k, v, rest'') ← scan_member (scan_value fuel') rest';
              scan_members (scan_value fuel') (String.length rest'') [(k, v)]
                           rest''
          end
      | String c rest =>
          if Ascii.eqb c DQUOTE then
            '(str, rest') ← scan_string (String.length rest) rest;
            Ok (PStr str, rest')
          else scan_int s
      | "" => invalid
      end
  end.

(** [json.loads(text)]: one value, with white space around it and nothing
    after it. *)
Definition loads (text : string) : result pyval :=
  '(v, rest) ← scan_value (String.length text) (skip_ws text);
  match skip_ws rest with
  | "" => Ok v
  | _ => invalid
  end.

End Json.

(** ** [datetime.fromisoformat]

    The inverse of [isoformat] for naive values: [YYYY-MM-DD], then
    optionally one separator character and [HH[:MM[:SS[.fff[fff]]]]].
    This is the part of the grammar that every version of the library
    reads, and the part [isoformat] writes for the dates of this program.
    Strings with a time-zone offset, and the further ISO 8601 forms that
    later versions read as well, are outside it and are refused here; the
    properties below rely on a refusal only for a value that is no string
    and for a string too short to hold a date in any form. *)

Module Iso.
Import Datetime.

Definition bad {A} : result A := Raise (ValueError "Invalid isoformat string").

(** Exactly [n] digits at the front of [s]. *)
Fixpoint take_digits (n : nat) (s : string) (acc : Z) : option (Z * string) :=
  match n with
  | O => Some (acc, s)
  | S n' =>
      match s with
      | String c s' =>
          match Json.digit_value c with
          | Some d => take_digits n' s' (acc * 10 + d)
          | None => None
          end
      | "" => None
      end
  end.

Definition expect (c : ascii) (s : string) : option string :=
  match s with
  | String c' s' => if Ascii.eqb c c' then Some s' else None
  | "" => None
  end.

Definition parse_date (s : string) : option (Z * Z * Z * string) :=
  '(y, s) ← take_digits 4 s 0;
  s ← expect "-" s;
  '(m, s) ← take_digits 2 s 0;
  s ← expect "-" s;
  '(d, s) ← take_digits 2 s 0;
  Some (y, m, d, s).

Definition parse_fraction (s : string) : option Z :=
  match take_digits 6 s 0 with
  | Some (us, "") => Some us
  | _ =>
      match take_digits 3 s 0 with
      | Some (ms, "") => Some (ms * 1000)
      | _ => None
      end
  end.

(** [HH[:MM[:SS[.fff[fff]]]]] up to the end of the string. *)
Definition parse_time (s : string) : option (Z * Z * Z * Z) :=
  '(hh, s) ← take_digits 2 s 0;
  match s with
  | "" => Some (hh, 0, 0, 0)
  | String ":" s =>
      '(mm, s) ← take_digits 2 s 0;
      match s with
      | "" => Some (hh, mm, 0, 0)
      | String ":" s =>
          '(ss, s) ← take_digits 2 s 0;
          match s with
          | "" => Some (hh, mm, ss, 0)
          | String "." s => us ← parse_fraction s; Some (hh, mm, ss, us)
          | _ => None
          end
      | _ => None
      end
  | _ => None
  end.

(** The range checks of the [datetime] constructor. *)
Definition valid (y m d hh mm ss us : Z) : bool :=
  (1 <=? y) && (y <=? 9999) && (1 <=? m) && (m <=? 12)
  && (1 <=? d) && (d <=? days_in_month y m)
  && (0 <=? hh) && (hh <=? 23) && (0 <=? mm) && (mm <=? 59)
  && (0 <=? ss) && (ss <=? 59) && (0 <=? us) && (us <=? 999999).

Definition fromisoformat (v : pyval) : result datetime :=
  match v with
  | PStr s =>
      match parse_date s with
      | Some (y, m, d, rest) =>
          let time :=
            match rest with
            | "" => Some (0, 0, 0, 0)
            | String _ rest' => parse_time rest'
            end in
          match time with
          | Some (hh, mm, ss, us) =>
              if valid y m d hh mm ss us
              then Ok (mk_datetime y m d hh mm ss us)
              else Raise (ValueError "value out of range")
          | None => bad
          end
      | None => bad
      end
  | _ => Raise (TypeError "fromisoformat: argument must be str")
  end.

End Iso.

(** ** Paths ([os.path]) *)

Module Path.

Definition is_sep (c : ascii) : bool := Ascii.eqb c "/".

(** [(p[:i], p[i:])] for [i] one past the last separator of [p]. *)
Fixpoint cut (p : string) : string * string :=
  match p with
  | "" => ("", "")
  | String c r =>
      let '(h, t) := cut r in
      if negb (String.eqb h "") then (String c h, t)
      else if is_sep c then (String c "", r)
      else ("", p)
  end.

Fixpoint rstrip_sep (s : string) : string :=
  match s with
  | "" => ""
  | String c r =>
      let r' := rstrip_sep r in
      if is_sep c && String.eqb r' "" then "" else String c r'
  end.

(** [os.path.split]: trailing separators are taken off the head unless it
    is the root. *)
Definition split (p : string) : string * string :=
  let '(h, t) := cut p in
  (if String.eqb (rstrip_sep h) "" then h else rstrip_sep h, t).

Definition dirname (p : string) : string := fst (split p).

Fixpoint ends_with_sep (s : string) : bool :=
  match s with
  | "" => false
  | String c "" => is_sep c
  | String _ r => ends_with_sep r
  end.

(** [os.path.join(a, b)] *)
Definition join (a b : string) : string :=
  match b with
  | String "/" _ => b
  | _ => if String.eqb a "" || ends_with_sep a then a +:+ b
         else a +:+ "/" +:+ b
  end.

Definition is_dot (c : ascii) : bool := Ascii.eqb c ".".

(** [(b[:i], b[i:])] for [i] the place of the last dot of [b]. *)
Fixpoint rcut_dot (b : string) : option (string * string) :=
  match b with
  | "" => None
  | String c r =>
      match rcut_dot r with
      | Some (pre, ext) => Some (String c pre, ext)
      | None => if is_dot c then Some ("", b) else None
      end
  end.

Fixpoint all_dots (s : string) : bool :=
  match s with
  | "" => true
  | String c r => is_dot c && all_dots r
  end.

(** [os.path.splitext]: the extension starts at the last dot of the last
    component; the dots a component starts with begin no extension. *)
Definition splitext (p : string) : string * string :=
  let '(h, t) := cut p in
  match rcut_dot t with
  | Some (pre, ext) => if all_dots pre then (p, "") else (h +:+ pre, ext)
  | None => (p, "")
  end.

(** [s.rstrip('.')] *)
Fixpoint rstrip_dots (s : string) : string :=
  match s with
  | "" => ""
  | String c r =>
      let r' := rstrip_dots r in
      if is_dot c && String.eqb r' "" then "" else String c r'
  end.



(** The directories above [p], outermost first. *)
Fixpoint ancestors_rec (fuel : nat) (p : string) : list string :=
  match fuel with
  | O => []
  | S fuel' =>
      let d := dirname p in
      if String.eqb d "" || String.eqb d p then []
      else ancestors_rec fuel' d ++ [d]
  end.

Definition ancestors (p : string) : list string :=
  ancestors_rec (String.length p) p.

End Path.

(** ** Figures: what the plotting calls record *)

Module Plot.

Abbreviation Q := QArith_base.Q.
Abbreviation Qmake := QArith_base.Qmake.

Record line : Type := mk_line {
  xdata : list Datetime.datetime;
  ydata : list pyval;
  line_color : pyval;
  marker : string;
  linewidth : Q;
  markersize : Z;
  label : pyval
}.

Record text : Type := mk_text {
  content : string; fontsize : Z; fontweight : string; pad_pt : option Z
}.

Record grid_style : Type := mk_grid { alpha : Q; linestyle : string }.

Record legend_box : Type := mk_legend {
  loc : string; frameon : bool; fancybox : bool; shadow : bool;
  entries : list (pyval * pyval)
}.

Record figure : Type := mk_figure {
  style : string;
  figsize : Z * Z;
  lines : list line;
  xlabel : option text;
  ylabel : option text;
  title : option text;
  major_formatter : option string;
  weekday_locator_interval : option Z;
  xtick_rotation : Z;
  grid : option grid_style;
  legend : option legend_box;
  tight : bool
}.

(** What [savefig] leaves in the file: the figure and the save options. *)
Record image : Type := mk_image {
  fig : figure; dpi : Z; bbox_inches : string;
  facecolor : string; edgecolor : string
}.

(** [plt.subplots(figsize=...)] under style [style]. *)
Definition subplots (style : string) (figsize : Z * Z) : figure :=
  mk_figure style figsize [] None None None None None 0 None None false.

Definition plot (f : figure) (l : line) : figure :=
  mk_figure (style f) (figsize f) (lines f ++ [l]) (xlabel f) (ylabel f)
    (title f) (major_formatter f) (weekday_locator_interval f)
    (xtick_rotation f) (grid f) (legend f) (tight f).

Definition set_xlabel (f : figure) (t : text) : figure :=
  mk_figure (style f) (figsize f) (lines f) (Some t) (ylabel f)
    (title f) (major_formatter f) (weekday_locator_interval f)
    (xtick_rotation f) (grid f) (legend f) (tight f).

Definition set_ylabel (f : figure) (t : text) : figure :=
  mk_figure (style f) (figsize f) (lines f) (xlabel f) (Some t)
    (title f) (major_formatter f) (weekday_locator_interval f)
    (xtick_rotation f) (grid f) (legend f) (tight f).

Definition set_title (f : figure) (t : text) : figure :=
  mk_figure (style f) (figsize f) (lines f) (xlabel f) (ylabel f)
    (Some t) (major_formatter f) (weekday_locator_interval f)
    (xtick_rotation f) (grid f) (legend f) (tight f).

Definition set_major_formatter (f : figure) (fmt : string) : figure :=
  mk_figure (style f) (figsize f) (lines f) (xlabel f) (ylabel f)
    (title f) (Some fmt) (weekday_locator_interval f)
    (xtick_rotation f) (grid f) (legend f) (tight f).

Definition set_major_locator (f : figure) (interval : Z) : figure :=
  mk_figure (style f) (figsize f) (lines f) (xlabel f) (ylabel f)
    (title f) (major_formatter f) (Some interval)
    (xtick_rotation f) (grid f) (legend f) (tight f).

Definition xticks (f : figure) (rotation : Z) : figure :=
  mk_figure (style f) (figsize f) (lines f) (xlabel f) (ylabel f)
    (title f) (major_formatter f) (weekday_locator_interval f)
    rotation (grid f) (legend f) (tight f).

Definition set_grid (f : figure) (g : grid_style) : figure :=
  mk_figure (style f) (figsize f) (lines f) (xlabel f) (ylabel f)
    (title f) (major_formatter f) (weekday_locator_interval f)
    (xtick_rotation f) (Some g) (legend f) (tight f).

(** A line enters the legend unless its label is empty or starts with an
    underscore. *)
Definition in_legend (l : line) : bool :=
  match label l with
  | PStr "" => false
  | PStr (String "_" _) => false
  | _ => true
  end.

(** [ax.legend(...)]: one entry, label and colour, per labelled line drawn
    so far. *)
Definition add_legend (f : figure) (loc : string) (frameon fancybox shadow : bool)
  : figure :=
  mk_figure (style f) (figsize f) (lines f) (xlabel f) (ylabel f)
    (title f) (major_formatter f) (weekday_locator_interval f)
    (xtick_rotation f) (grid f)
    (Some (mk_legend loc frameon fancybox shadow
             (map (fun l => (label l, line_color l))
                  (filter (fun l => in_legend l = true) (lines f)))))
    (tight f).

Definition tight_layout (f : figure) : figure :=
  mk_figure (style f) (figsize f) (lines f) (xlabel f) (ylabel f)
    (title f) (major_formatter f) (weekday_locator_interval f)
    (xtick_rotation f) (grid f) (legend f) true.

(** *** The file [savefig] writes

    [savefig] is given no [format]: it takes it from the extension of the
    file name, in lower case; a name without extension gets the default
    format, [png], and that extension. *)

Definition to_lower (c : ascii) : ascii :=
  let n := nat_of_ascii c in
  if (65 <=? n)%nat && (n <=? 90)%nat then ascii_of_nat (n + 32) else c.

Fixpoint lower (s : string) : string :=
  match s with
  | "" => ""
  | String c r => String (to_lower c) (lower r)
  end.

(** The file types of the default canvas. *)
Definition filetypes : list string :=
  ["eps"; "jpeg"; "jpg"; "pdf"; "pgf"; "png"; "ps"; "raw"; "rgba"; "svg";
   "svgz"; "tif"; "tiff"; "webp"].

Definition supported (format : string) : bool :=
  existsb (String.eqb format) filetypes.

Definition format_of (filename : string) : string :=
  match snd (Path.splitext filename) with
  | String _ (String c r) => lower (String c r)
  | _ => "png"
  end.

(** The name of the file written for [filename]. *)
Definition target (filename : string) : string :=
  match snd (Path.splitext filename) with
  | String _ (String _ _) => filename
  | _ => Path.rstrip_dots filename +:+ ".png"
  end.

End Plot.

(** ** The world: file system and console *)

(** A text file, a PNG image, or a picture in another format. *)
Inductive content : Type :=
  | Text (s : string)
  | Image (img : Plot.image)
  | Picture (format : string) (img : Plot.image).

(** [dirs] and [files] are the directories and files that exist, named by
    their path as written (relative paths start from the working directory,
    which is named by the empty path); nothing new can be created inside a
    directory of [readonly], and a file of [readonly] cannot be rewritten;
    [stdout] holds the printed lines, oldest first.

    Every directory and file has one name here, its path from the working
    directory without empty, [.] or [..] components, and an operation looks
    for the path it is given as it is written: the operations below speak
    for the file system on the paths of [Path.plain]. *)
Record world : Type := mk_world {
  dirs : gset string;
  files : gmap string content;
  readonly : gset string;
  stdout : list string
}.

Definition py (A : Type) : Type := world -> result A * world.

#[global] Instance py_ret : MRet py := fun _ a w => (Ok a, w).
#[global] Instance py_bind : MBind py := fun _ _ f m w =>
  match m w with
  | (Ok a, w') => f a w'
  | (Raise e, w') => (Raise e, w')
  end.

Definition raise {A} (e : exn) : py A := fun w => (Raise e, w).
Definition lift {A} (r : result A) : py A := fun w => (r, w).
Definition ask : py world := fun w => (Ok w, w).

(** [try: m  except exn as e: handler e] *)
Definition try_except {A} (m : py A) (handler : exn -> py A) : py A :=
  fun w =>
    match m w with
    | (Ok a, w') => (Ok a, w')
    | (Raise e, w') => handler e w'
    end.

Definition is_OSError (e : exn) : bool :=
  match e with
  | FileNotFoundError _ | FileExistsError _ | IsADirectoryError _
  | NotADirectoryError _ | PermissionError _ => true
  | _ => false
  end.

Definition is_FileExistsError (e : exn) : bool :=
  match e with FileExistsError _ => true | _ => false end.

Definition print (line : string) : py unit := fun w =>
  (Ok tt, mk_world (dirs w) (files w) (readonly w) (stdout w ++ [line])).

Module Os.

(** [os.path.isdir] *)
Definition isdir (w : world) (p : string) : bool :=
  bool_decide (p ∈ dirs w) || String.eqb p "/".

Definition isfile (w : world) (p : string) : bool :=
  bool_decide (is_Some (files w !! p)).

(** [os.path.exists] *)
Definition exists_ (w : world) (p : string) : bool := isdir w p || isfile w p.

(** The directory a new entry [p] would go in exists: the working
    directory for a bare name. *)
Definition parent_ok (w : world) (p : string) : bool :=
  String.eqb (Path.dirname p) "" || isdir w (Path.dirname p).

(** What [open] and [mkdir] raise when the directory of [p] is missing:
    the path is resolved from its outermost directory, and the first
    ancestor that is no directory decides, [NotADirectoryError] when it is
    a file and [FileNotFoundError] when nothing is there. *)
Definition no_parent (w : world) (p : string) : exn :=
  match List.find (fun a => negb (isdir w a)) (Path.ancestors p) with
  | Some a => if isfile w a then NotADirectoryError p else FileNotFoundError p
  | None => FileNotFoundError p
  end.

Definition locked (w : world) (p : string) : bool :=
  bool_decide (p ∈ readonly w).

(** [os.mkdir(name)] *)
Definition mkdir (name : string) : py unit := fun w =>
  if String.eqb name "" then (Raise (FileNotFoundError name), w)
  else if exists_ w name then (Raise (FileExistsError name), w)
  else if negb (parent_ok w name) then (Raise (no_parent w name), w)
  else if locked w (Path.dirname name) then (Raise (PermissionError name), w)
  else (Ok tt, mk_world ({[name]} ∪ dirs w) (files w) (readonly w) (stdout w)).

(** [os.makedirs(name, exist_ok=exist_ok)]: the missing ancestors first,
    then [name] itself; with [exist_ok] an existing directory is accepted. *)
Fixpoint makedirs_rec (fuel : nat) (name : string) (exist_ok : bool) : py unit :=
  match fuel with
  | O => raise RecursionError
  | S fuel' =>
      let '(head, tail) := Path.split name in
      let '(head, tail) :=
        if String.eqb tail "" then Path.split head else (head, tail) in
      w ← ask;
      done ←
        (if negb (String.eqb head "") && negb (String.eqb tail "")
            && negb (exists_ w head)
         then
           try_except (makedirs_rec fuel' head exist_ok)
             (fun e => if is_FileExistsError e then mret tt else raise e);;
           mret (String.eqb tail ".")
         else mret false);
      if done : bool then mret tt
      else
        try_except (mkdir name)
          (fun e =>
             w ← ask;
             if is_OSError e && (negb exist_ok || negb (isdir w name))
             then raise e
             else if is_OSError e then mret tt else raise e)
  end.

Definition makedirs (name : string) (exist_ok : bool) : py unit :=
  makedirs_rec (S (String.length name)) name exist_ok.

(** [open(path, 'w')]: the file is created, or emptied if it exists. *)
Definition open_w (path : string) : py unit := fun w =>
  if String.eqb path "" then (Raise (FileNotFoundError path), w)
  else if isdir w path then (Raise (IsADirectoryError path), w)
  else if negb (parent_ok w path) then (Raise (no_parent w path), w)
  else if locked w (if isfile w path then path else Path.dirname path)
  then (Raise (PermissionError path), w)
  else (Ok tt,
        mk_world (dirs w) (<[path := Text ""]> (files w)) (readonly w)
                 (stdout w)).

(** [f.write(chunk)] on the text file opened at [path]. *)
Definition fwrite (path chunk : string) : py unit := fun w =>
  match files w !! path with
  | Some (Text t) =>
      (Ok tt,
       mk_world (dirs w) (<[path := Text (t +:+ chunk)]> (files w))
                (readonly w) (stdout w))
  | _ => (Raise (ValueError "I/O operation on closed file"), w)
  end.

End Os.

Definition put_file (path : string) (c : content) : py unit := fun w =>
  (Ok tt,
   mk_world (dirs w) (<[path := c]> (files w)) (readonly w) (stdout w)).

(** What a file of format [format] holds for the image [img]. *)
Definition stored (format : string) (img : Plot.image) : content :=
  if String.eqb format "png" then Image img else Picture format img.

(** [plt.savefig(path, dpi=..., bbox_inches=..., facecolor=..., edgecolor=...)]:
    the format is settled first, and a format the canvas cannot write
    raises before any file is touched; then the file is opened for writing
    and receives the image. *)
Definition savefig (path : string) (img : Plot.image) : py unit :=
  let format := Plot.format_of path in
  if negb (Plot.supported format)
  then raise (ValueError ("Format '" +:+ format +:+ "' is not supported"))
  else
    Os.open_w (Plot.target path);;
    put_file (Plot.target path) (stored format img).

(** ** The chart renderer *)

Record group : Type := mk_group {
  g_dates : list Datetime.datetime;
  g_points : list pyval;
  g_color : pyval
}.

(** Dict keys must be hashable: lists and dicts are not. *)
Definition hashable (v : pyval) : bool :=
  match v with
  | PInt _ | PStr _ => true
  | _ => false
  end.

Definition key_eqb (a b : pyval) : bool :=
  match a, b with
  | PInt x, PInt y => x =? y
  | PStr s, PStr t => String.eqb s t
  | _, _ => false
  end.

Fixpoint contains (d : list (pyval * group)) (name : pyval) : bool :=
  match d with
  | [] => false
  | (k, _) :: d' => key_eqb k name || contains d' name
  end.

(** [individuals_data[name][...].append(...)]: the group of [name] is
    changed in place. *)
Fixpoint update (d : list (pyval * group)) (name : pyval) (f : group -> group)
  : list (pyval * group) :=
  match d with
  | [] => []
  | (k, g) :: d' =>
      if key_eqb k name then (k, f g) :: d' else (k, g) :: update d' name f
  end.

(** The body of the grouping loop. *)
Definition group_body (record : dict) (individuals_data : list (pyval * group))
  : result (list (pyval * group)) :=
  name ← getitem record "individual";
  if negb (hashable name) then Raise (TypeError "unhashable type")
  else
    individuals_data ←
      (if negb (contains individuals_data name) then
         color ← getitem record "color";
         Ok (individuals_data ++ [(name, mk_group [] [] color)])
       else Ok individuals_data);
    date ← getitem record "date";
    date ← Iso.fromisoformat date;
    let individuals_data :=
      update individuals_data name
        (fun g => mk_group (g_dates g ++ [date]) (g_points g) (g_color g)) in
    points ← getitem record "cumulative_points";
    Ok (update individuals_data name
          (fun g => mk_group (g_dates g) (g_points g ++ [points]) (g_color g))).

(** [str(name)] for a key of [individuals_data]: keys are hashable, so
    strings or integers. *)
Definition py_str (v : pyval) : string :=
  match v with
  | PStr s => s
  | PInt z => int_repr z
  | _ => ""
  end.

(** The body of the plotting loop.  The line keeps its label as a string.
    The call is embedded for the arguments the plotting library takes: a
    colour it knows, and totals it can place on an axis. *)
Definition plot_body (f : Plot.figure) (item : pyval * group) : Plot.figure :=
  let '(name, person_data) := item in
  Plot.plot f
    (Plot.mk_line (g_dates person_data) (g_points person_data)
       (g_color person_data) "o" (Plot.Qmake 5 2) 6 (PStr (py_str name))).

(** The figure [create_line_chart] has drawn when it reaches [savefig]. *)
Definition draw (individuals_data : list (pyval * group)) : Plot.figure :=
  let f := Plot.subplots "default" (12, 8) in
  let f := fold_left plot_body individuals_data f in
  let f := Plot.set_xlabel f (Plot.mk_text "Time (Weeks)" 12 "bold" None) in
  let f := Plot.set_ylabel f (Plot.mk_text "Cumulative Points" 12 "bold" None) in
  let f := Plot.set_title f
             (Plot.mk_text "Individual Point Tracking Over Time" 16 "bold"
                           (Some 20)) in
  let f := Plot.set_major_formatter f "%Y-W%U" in
  let f := Plot.set_major_locator f 2 in
  let f := Plot.xticks f 45 in
  let f := Plot.set_grid f (Plot.mk_grid (Plot.Qmake 3 10) "--") in
  let f := Plot.add_legend f "upper left" true true true in
  Plot.tight_layout f.

(** What [savefig] writes for the figure of [individuals_data]. *)
Definition chart_image (individuals_data : list (pyval * group)) : Plot.image :=
  Plot.mk_image (draw individuals_data) 300 "tight" "white" "none".

Definition create_line_chart (data : list dict) (output_path : string) : py unit :=
  individuals_data ← lift (for_each data group_body []);
  savefig output_path (chart_image individuals_data);;
  print ("Chart saved to: " +:+ output_path).

(** ** The data exporter *)

(** [open] empties the file, then [json.dump] writes the text.  The write
    is embedded for the values [json.dump] turns into text in full:
    integers of at most 4300 digits ([short_ints] below), nested no deeper
    than the interpreter allows. *)
Definition save_data_as_json (data : list dict) (output_path : string) : py unit :=
  Os.open_w output_path;;
  Os.fwrite output_path (Json.dumps 2 (PList (map PDict data)));;
  print ("Data saved to: " +:+ output_path).

(** ** Orchestration *)

Definition output_dir : string := "charts".
Definition chart_path : string :=
  Path.join output_dir "individual_points_line_chart.png".
Definition data_path : string :=
  Path.join output_dir "point_tracking_data.json".

Definition main : py unit :=
  print "Generating individual point tracking chart...";;
  data ← lift generate_sample_data;
  Os.makedirs output_dir true;;
  create_line_chart data chart_path;;
  save_data_as_json data data_path;;
  print "Chart generation completed successfully!";;
  print ("Chart location: " +:+ chart_path);;
  print ("Data location: " +:+ data_path).

Definition empty_world : world := mk_world ∅ ∅ ∅ [].

(** ** Reading the records *)

Definition names : list string := ["Alice"; "Bob"; "Charlie"; "Diana"; "Eve"].

Definition color_table : list (string * string) :=
  [ ("Alice", "#FF6B6B"); ("Bob", "#4ECDC4"); ("Charlie", "#45B7D1");
    ("Diana", "#FFA726"); ("Eve", "#AB47BC") ].

Definition str_field (key : string) (r : dict) : option string :=
  match getitem r key with
  | Ok (PStr s) => Some s
  | _ => None
  end.

Definition int_field (key : string) (r : dict) : option Z :=
  match getitem r key with
  | Ok (PInt z) => Some z
  | _ => None
  end.

Definition is_individual (name : string) (r : dict) : bool :=
  match getitem r "individual" with
  | Ok v => py_eq_str v name
  | Raise _ => false
  end.

(** The records of one individual, in the order of the sequence. *)
Definition series (name : string) (data : list dict) : list dict :=
  List.filter (is_individual name) data.

(** The calendar-week label of week [w] of 2024. *)
Definition week_label (w : Z) : string := "2024-W" +:+ pad 2 w.

Fixpoint increasing (l : list Z) : bool :=
  match l with
  | a :: (b :: _) as t => (a <? b) && increasing t
  | _ => true
  end.

Definition is_digit (c : ascii) : bool :=
  match Json.digit_value c with Some _ => true | None => false end.

Definition is_hex_digit (c : ascii) : bool :=
  match Json.hex_value c with Some _ => true | None => false end.

(** [s] has the shape of [pattern]: a [9] stands for any decimal digit, an
    [h] for any hexadecimal digit, every other character for itself. *)
Fixpoint shaped (pattern s : string) : bool :=
  match pattern, s with
  | "", "" => true
  | String p pattern', String c s' =>
      (if Ascii.eqb p "9" then is_digit c
       else if Ascii.eqb p "h" then is_hex_digit c
       else Ascii.eqb p c)
      && shaped pattern' s'
  | _, _ => false
  end.

(** [datetime] values compare as their field tuples do. *)
Definition datetime_key (t : Datetime.datetime) : list Z :=
  [ Datetime.year t; Datetime.month t; Datetime.day t; Datetime.hour t;
    Datetime.minute t; Datetime.second t; Datetime.microsecond t ].

Fixpoint lex_ltb (a b : list Z) : bool :=
  match a, b with
  | x :: a', y :: b' => (x <? y) || ((x =? y) && lex_ltb a' b')
  | [], _ :: _ => true
  | _, [] => false
  end.

Definition datetime_ltb (a b : Datetime.datetime) : bool :=
  lex_ltb (datetime_key a) (datetime_key b).

(** The dates of a run of records, parsed back from their text. *)
Definition dates_of (rs : list dict) : list (result Datetime.datetime) :=
  map (fun r => d ← getitem r "date"; Iso.fromisoformat d) rs.

Fixpoint dates_increasing (l : list (result Datetime.datetime)) : bool :=
  match l with
  | Ok a :: (Ok b :: _) as t => datetime_ltb a b && dates_increasing t
  | [Ok _] => true
  | [] => true
  | _ => false
  end.

(** The sequence the synthesizer returns. *)
Definition sample : list dict :=
  Eval vm_compute in
    match generate_sample_data with Ok data => data | Raise _ => [] end.

(** A record as the synthesizer builds it: the five keys in the order of
    the dict literal, a hex colour, a calendar-week label, the ISO text of
    the start of week [w], an integer total. *)
Definition record_ok (w : Z) (r : dict) : bool :=
  match r with
  | [ (k1, PStr _); (k2, PStr color); (k3, PStr week); (k4, PStr date);
      (k5, PInt _) ] =>
      String.eqb k1 "individual" && String.eqb k2 "color"
      && String.eqb k3 "week" && String.eqb k4 "date"
      && String.eqb k5 "cumulative_points"
      && shaped "#hhhhhh" color
      && shaped "9999-W99" week
      && shaped "9999-99-99T99:99:99" date
      && match Iso.fromisoformat (PStr date) with
         | Ok t =>
             (Datetime.toordinal t =? Datetime.toordinal start_date + 7 * w)
             && (Datetime.hour t =? 0) && (Datetime.minute t =? 0)
             && (Datetime.second t =? 0) && (Datetime.microsecond t =? 0)
             && String.eqb (Datetime.isoformat t) date
         | Raise _ => false
         end
      && match Datetime.add start_date (Datetime.timedelta_weeks w) with
         | Ok t => String.eqb (Datetime.isoformat t) date
         | Raise _ => false
         end
  | _ => false
  end.

(** [record_ok] along a sequence, the week index restarting every 12
    records. *)
Fixpoint records_ok (i : nat) (data : list dict) : bool :=
  match data with
  | [] => true
  | r :: data' =>
      record_ok (Z.of_nat (i mod 12)) r && records_ok (Datatypes.S i) data'
  end.

Definition has_table_color (r : dict) : bool :=
  match str_field "individual" r, str_field "color" r with
  | Some name, Some color =>
      match List.find (fun nc => String.eqb (fst nc) name) color_table with
      | Some (_, c) => String.eqb c color
      | None => false
      end
  | _, _ => false
  end.

Definition has_color (color : string) (r : dict) : bool :=
  match str_field "color" r with
  | Some c => String.eqb c color
  | None => false
  end.

(** The label [strftime] gives the start of week [w]. *)
Definition strftime_week (w : Z) : result string :=
  t ← Datetime.add start_date (Datetime.timedelta_weeks w);
  Ok (Datetime.strftime t "%Y-W%U").

(** ** Texts of the encoder, for the decoder's properties *)

Definition scalar (v : pyval) : Prop :=
  match v with
  | PInt _ | PStr _ => True
  | _ => False
  end.

(** A record whose keys are distinct and whose values are scalars. *)
Definition flat (d : dict) : Prop :=
  NoDup (keys d) /\ Forall (fun kv => scalar (snd kv)) d.

(** [s] does not start with a decimal digit. *)
Definition no_digit_head (s : string) : Prop :=
  match s with
  | String c _ => Json.digit_value c = None
  | "" => True
  end.

(** One member of an object as the encoder writes it. *)
Definition member_text (indent level : nat) (kv : string * pyval) : string :=
  Json.encode_string (fst kv) +:+ ": " +:+ Json.encode indent level (snd kv).

(** Every chunk with the separator in front of it. *)
Fixpoint sep_all (sep : string) (chunks : list string) : string :=
  match chunks with
  | [] => ""
  | c :: cs => sep +:+ c +:+ sep_all sep cs
  end.

(** The world once [main] has printed its first line. *)
Definition after_banner (w : world) : world :=
  mk_world (dirs w) (files w) (readonly w)
           (stdout w ++ ["Generating individual point tracking chart..."]).

(** A world in which the chart's path is taken by a directory. *)
Definition blocked_world : world :=
  mk_world {[output_dir; chart_path]} ∅ ∅ [].

(** ** More about the synthesizer: closed form of its records *)

(** The running total of [name] after week [w]: the gains of weeks 0 to
    [w] added up. *)
Fixpoint total (name : pyval) (w : nat) : Z :=
  match w with
  | O => increment name 0
  | S w' => total name w' + increment name (Z.of_nat w)
  end.

(** The ISO text of the start of week [w]. *)
Definition week_start (w : nat) : string :=
  match Datetime.add start_date (Datetime.timedelta_weeks (Z.of_nat w)) with
  | Ok t => Datetime.isoformat t
  | Raise _ => ""
  end.

(** The record of week [w] for an individual of the given name and colour. *)
Definition week_record (name color : pyval) (w : nat) : dict :=
  [ ("individual", name); ("color", color);
    ("week", PStr (week_label (Z.of_nat w)));
    ("date", PStr (week_start w));
    ("cumulative_points", PInt (total name w)) ].

(** An entry of the individuals table, written as the source writes it. *)
Definition individual_entry (nc : pyval * pyval) : dict :=
  [("name", fst nc); ("color", snd nc)].

(** ** More about the renderer: what the grouping loop computes *)

(** What the grouping loop reads of one record. *)
Record point : Type := mk_point {
  p_name : pyval;
  p_color : pyval;
  p_date : Datetime.datetime;
  p_points : pyval
}.

(** The fields of a record the renderer can always process: a hashable
    individual, a colour, a date in ISO form and a point total. *)
Definition view (r : dict) : result point :=
  name ← getitem r "individual";
  if negb (hashable name) then Raise (TypeError "unhashable type")
  else
    color ← getitem r "color";
    date ← getitem r "date";
    date ← Iso.fromisoformat date;
    points ← getitem r "cumulative_points";
    Ok (mk_point name color date points).

(** An integer total: the plotting call draws one line of such totals. *)
Definition is_int (v : pyval) : bool :=
  match v with
  | PInt _ => true
  | _ => false
  end.

(** One more name seen: it goes last unless it is there already. *)
Definition see (seen : list pyval) (n : pyval) : list pyval :=
  if existsb (fun m => key_eqb m n) seen then seen else seen ++ [n].

(** The names in the order in which they are first seen. *)
Definition first_seen (ns : list pyval) : list pyval := fold_left see ns [].

(** The points of the individual [n], in the order of the sequence. *)
Definition points_named (n : pyval) (vs : list point) : list point :=
  List.filter (fun v => key_eqb (p_name v) n) vs.

(** The group of [n]: its dates and totals in the order of the sequence, and
    the colour of its first record. *)
Definition group_of (n : pyval) (vs : list point) : group :=
  mk_group (map p_date (points_named n vs)) (map p_points (points_named n vs))
           (match points_named n vs with
            | v :: _ => p_color v
            | [] => PStr ""
            end).

Definition grouped (vs : list point) : list (pyval * group) :=
  map (fun n => (n, group_of n vs)) (first_seen (map p_name vs)).

(** The line the plotting loop draws for a group. *)
Definition line_of (item : pyval * group) : Plot.line :=
  Plot.mk_line (g_dates (snd item)) (g_points (snd item)) (g_color (snd item))
               "o" (Plot.Qmake 5 2) 6 (PStr (py_str (fst item))).

(** [individuals_data[name]["dates"].append(t)] and the same for the
    points, as changes of a group. *)
Definition add_date (t : Datetime.datetime) (g : group) : group :=
  mk_group (g_dates g ++ [t]) (g_points g) (g_color g).

Definition add_points (p : pyval) (g : group) : group :=
  mk_group (g_dates g) (g_points g ++ [p]) (g_color g).

(** One round of the grouping loop on a well-formed record. *)
Definition step (v : point) (acc : list (pyval * group)) : list (pyval * group) :=
  let acc' :=
    if contains acc (p_name v) then acc
    else acc ++ [(p_name v, mk_group [] [] (p_color v))] in
  update (update acc' (p_name v) (add_date (p_date v))) (p_name v)
         (add_points (p_points v)).

(** Three well-formed records of two individuals, interleaved; the second
    record of [a] names another colour. *)
Definition mixed_records : list dict :=
  [ [("individual", PStr "a"); ("color", PStr "#111111");
     ("date", PStr "2024-01-01"); ("cumulative_points", PInt 1)];
    [("individual", PStr "b"); ("color", PStr "#222222");
     ("date", PStr "2024-01-01T00:00:00"); ("cumulative_points", PInt 5)];
    [("individual", PStr "a"); ("color", PStr "#333333");
     ("date", PStr "2024-01-08"); ("cumulative_points", PInt 3)] ].

Definition mixed_points : list point :=
  [ mk_point (PStr "a") (PStr "#111111")
             (Datetime.mk_datetime 2024 1 1 0 0 0 0) (PInt 1);
    mk_point (PStr "b") (PStr "#222222")
             (Datetime.mk_datetime 2024 1 1 0 0 0 0) (PInt 5);
    mk_point (PStr "a") (PStr "#333333")
             (Datetime.mk_datetime 2024 1 8 0 0 0 0) (PInt 3) ].

(** The number of points a list of groups holds. *)
Definition plotted (groups : list (pyval * group)) : nat :=
  sum_list (map (fun kg => length (g_points (snd kg))) groups).

(** ** More about the exporter and the orchestration *)

(** A character of plain ASCII text: a new line, or one from the space to
    the tilde. *)
Definition plain_char (c : ascii) : bool :=
  let n := N_of_ascii c in
  (N.eqb n 10 || (N.leb 32 n && N.leb n 126))%bool.

Fixpoint plain_text (s : string) : bool :=
  match s with
  | "" => true
  | String c s' => plain_char c && plain_text s'
  end.

(** A record with a name outside ASCII, a control character and a quote. *)
Definition accented_records : list dict :=
  [ [("individual", PStr (String (ascii_of_N 233) "ve"));
     ("note", PStr (String (ascii_of_N 9) (String Json.DQUOTE "")));
     ("nested", PList [PInt (-7); PDict []])] ].


(** [path] can be opened for writing in [w]. *)
Definition can_write (w : world) (path : string) : Prop :=
  path <> "" /\ Os.isdir w path = false /\ Os.parent_ok w path = true
  /\ Os.locked w (if Os.isfile w path then path else Path.dirname path) = false.

(** [main] can run in [w]: [charts] is a directory, or can be made; its two
    output paths are not directories; nothing it writes is read-only. *)
Definition runnable (w : world) : bool :=
  (Os.isdir w output_dir
   || (negb (Os.isfile w output_dir) && negb (Os.locked w "")))
  && negb (Os.isdir w chart_path) && negb (Os.isdir w data_path)
  && negb (Os.locked w output_dir)
  && negb (Os.locked w chart_path) && negb (Os.locked w data_path).

(** The groups the renderer makes of the synthesized records. *)
Definition sample_groups : list (pyval * group) :=
  Eval vm_compute in
    match for_each sample group_body [] with Ok g => g | Raise _ => [] end.

(** The world a successful run of [main] leaves. *)
Definition after_main (w : world) : world :=
  mk_world ({[output_dir]} ∪ dirs w)
    (<[data_path := Text (Json.dumps 2 (PList (map PDict sample)))]>
       (<[chart_path := Image (chart_image sample_groups)]> (files w)))
    (readonly w)
    (stdout w
     ++ ["Generating individual point tracking chart...";
         "Chart saved to: " +:+ chart_path;
         "Data saved to: " +:+ data_path;
         "Chart generation completed successfully!";
         "Chart location: " +:+ chart_path;
         "Data location: " +:+ data_path]).

(** A small sequence of records with an escaped key, a negative total and
    an empty record. *)
Definition odd_records : list dict :=
  [ [("a\b", PInt (-5)); ("k", PStr "x/y")]; []; [("n", PInt 0)] ].

(** * Properties *)

(** ** Loops *)

(** An invariant [P i s] of the loop state after [i] rounds holds at the end
    of a loop that does not raise. *)
Lemma for_each_invariant {A S} (P : nat -> S -> Prop) (xs : list A)
    (body : A -> S -> result S) (s s' : S) :
  P O s ->
  (forall i x t t', xs !! i = Some x -> P i t -> body x t = Ok t' -> P (Datatypes.S i) t') ->
  for_each xs body s = Ok s' ->
  P (length xs) s'.
Proof.
  revert P s. induction xs as [|x xs IH]; intros P s H0 Hstep Hrun; simpl in *.
  - congruence.
  - destruct (body x s) as [t|e] eqn:Hb; simpl in Hrun; [|discriminate].
    apply (IH (fun i => P (Datatypes.S i)) t); [| |exact Hrun].
    + apply (Hstep O x s t); [reflexivity | exact H0 | exact Hb].
    + intros i y u u' Hy Hu Hbody. apply (Hstep (Datatypes.S i) y u u'); assumption.
Qed.

Lemma increasing_lookup (l : list Z) :
  increasing l = true ->
  forall i a b, l !! i = Some a -> l !! Datatypes.S i = Some b -> a < b.
Proof.
  induction l as [|x l IH]; intros H i a b Ha Hb; [discriminate|].
  destruct l as [|y l]; [destruct i; discriminate|].
  simpl in H. apply andb_prop in H as [Hxy Hrest].
  destruct i as [|i]; simpl in Ha, Hb.
  - injection Ha as <-. injection Hb as <-. lia.
  - exact (IH Hrest i a b Ha Hb).
Qed.

Lemma forallb_elem_of {A} (p : A -> bool) (l : list A) :
  forallb p l = true -> forall x, x ∈ l -> p x = true.
Proof.
  intros H x Hx. apply list_elem_of_In in Hx.
  rewrite forallb_forall in H. exact (H x Hx).
Qed.

(** ** The data synthesizer *)

(** Every weekly gain is positive, whatever the individual. *)
Lemma increment_pos (name : pyval) (w : Z) : 0 <= w -> 0 < increment name w.
Proof.
  intros Hw. unfold increment.
  pose proof (Z.mod_pos_bound w 2 eq_refl).
  pose proof (Z.mod_pos_bound w 3 eq_refl).
  pose proof (Z.mod_pos_bound w 4 eq_refl).
  pose proof (Z.mod_pos_bound w 5 eq_refl).
  repeat case_match; lia.
Qed.

(** One round of the inner loop appends one record, which carries the new
    running total, and the total grows. *)
Lemma week_body_step (individual : dict) (w p p' : Z) (d d' : list dict) :
  0 <= w ->
  week_body individual w (p, d) = Ok (p', d') ->
  p < p' /\ exists r, d' = d ++ [r] /\ int_field "cumulative_points" r = Some p'.
Proof.
  intros Hw. unfold week_body.
  destruct (Datetime.add _ _) as [t|e]; simpl; [|discriminate].
  destruct (getitem individual "name") as [name|e]; simpl; [|discriminate].
  destruct (getitem individual "color") as [color|e]; simpl; [|discriminate].
  intros [= <- <-]. split.
  - pose proof (increment_pos name w Hw). lia.
  - eexists. split; [reflexivity|]. reflexivity.
Qed.

(** The inner loop appends one record per week: 12 for an individual. *)
Lemma individual_body_length (individual : dict) (data data' : list dict) :
  individual_body individual data = Ok data' ->
  length data' = (length data + 12)%nat.
Proof.
  unfold individual_body.
  destruct (for_each (range 12) (week_body individual) (0, data))
    as [[p d]|e] eqn:Hloop; simpl; [|discriminate].
  intros [= <-].
  apply (for_each_invariant
           (fun i st => length (snd st) = (length data + i)%nat)
           (range 12) (week_body individual) (0, data) (p, d));
    [simpl; lia | | exact Hloop].
  intros i w [q t] [q' t'] Hw Hinv Hbody. simpl in Hinv |- *.
  unfold range in Hw. apply list_lookup_fmap_Some in Hw as (n & -> & Hn).
  destruct (week_body_step individual (Z.of_nat n) q q' t t') as (_ & r & -> & _);
    [lia | exact Hbody |].
  rewrite length_app. simpl. lia.
Qed.

(** The outer loop: 12 records for each individual it goes through. *)
Lemma individuals_loop_length (inds : list dict) (data : list dict) :
  for_each inds individual_body [] = Ok data ->
  length data = (12 * length inds)%nat.
Proof.
  intros Hloop.
  apply (for_each_invariant (fun i d => length d = (12 * i)%nat)
           inds individual_body [] data); [reflexivity | | exact Hloop].
  intros i ind d d' _ Hinv Hbody.
  rewrite (individual_body_length ind d d' Hbody). lia.
Qed.

Lemma generate_sample_data_eq : generate_sample_data = Ok sample.
Proof. vm_compute. reflexivity. Qed.

(** C1: the synthesizer returns 60 records, the 12 weeks of Alice in week
    order, then those of Bob, Charlie, Diana and Eve; it reads nothing of the
    world and leaves it as it was, so every run returns this same sequence. *)
Theorem generate_sample_data_sequence :
  exists data,
    generate_sample_data = Ok data
    /\ length data = 60%nat
    /\ map (fun r => (str_field "individual" r, str_field "week" r)) data
       = flat_map
           (fun name => map (fun w => (Some name, Some (week_label w))) (range 12))
           names
    /\ forall w : world, lift generate_sample_data w = (Ok data, w).
Proof.
  exists sample. split; [exact generate_sample_data_eq|].
  split; [exact (individuals_loop_length individuals sample
                   generate_sample_data_eq)|].
  split; [vm_compute; reflexivity|].
  intros w. unfold lift. rewrite generate_sample_data_eq. reflexivity.
Qed.

(** C2: for each of the five individuals the 12 running totals are strictly
    increasing from one week to the next; every weekly gain of weeks 0 to 11
    is positive, so each round of the inner loop raises the running total. *)
Theorem cumulative_points_increasing :
  exists data,
    generate_sample_data = Ok data
    /\ (forall name, name ∈ names ->
          let totals := omap (int_field "cumulative_points") (series name data) in
          length totals = 12%nat
          /\ forall i a b,
               totals !! i = Some a -> totals !! Datatypes.S i = Some b -> a < b)
    /\ (forall name w, 0 <= w <= 11 -> 0 < increment (PStr name) w)
    /\ (forall individual w p d p' d',
          0 <= w -> week_body individual w (p, d) = Ok (p', d') -> p < p').
Proof.
  exists sample. split; [exact generate_sample_data_eq|]. split; [|split].
  - intros name Hin. unfold names in Hin.
    repeat (apply elem_of_cons in Hin as [-> | Hin]);
      [| | | | | apply elem_of_nil in Hin; contradiction];
      (split; [vm_compute; reflexivity
              | apply increasing_lookup; vm_compute; reflexivity]).
  - intros name w Hw. apply increment_pos. lia.
  - intros individual w p d p' d' Hw Hbody.
    exact (proj1 (week_body_step individual w p p' d d' Hw Hbody)).
Qed.

(** C3: Alice gains 15 in week 0 and 22 in week 1, Bob gains 12 in week 0;
    the first two records are Alice's with totals 15 and 37, and Bob's first
    record has total 12. *)
Theorem first_totals :
  exists data,
    generate_sample_data = Ok data
    /\ increment (PStr "Alice") 0 = 15
    /\ increment (PStr "Alice") 1 = 22
    /\ increment (PStr "Bob") 0 = 12
    /\ int_field "cumulative_points" <$> series "Alice" data !! 0%nat = Some (Some 15)
    /\ int_field "cumulative_points" <$> series "Alice" data !! 1%nat = Some (Some 37)
    /\ int_field "cumulative_points" <$> series "Bob" data !! 0%nat = Some (Some 12)
    /\ series "Alice" data !! 0%nat = data !! 0%nat
    /\ series "Alice" data !! 1%nat = data !! 1%nat
    /\ series "Bob" data !! 0%nat = data !! 12%nat.
Proof.
  exists sample. split; [exact generate_sample_data_eq|].
  repeat split; vm_compute; reflexivity.
Qed.

(** ** The shape of the records *)

Lemma record_ok_spec (w : Z) (r : dict) :
  record_ok w r = true ->
  exists name color week date points,
    r = [ ("individual", PStr name); ("color", PStr color);
          ("week", PStr week); ("date", PStr date);
          ("cumulative_points", PInt points) ]
    /\ shaped "#hhhhhh" color = true
    /\ shaped "9999-W99" week = true
    /\ shaped "9999-99-99T99:99:99" date = true
    /\ Datetime.isoformat <$> Datetime.add start_date (Datetime.timedelta_weeks w)
       = Ok date
    /\ exists t,
         Iso.fromisoformat (PStr date) = Ok t
         /\ Datetime.toordinal t = Datetime.toordinal start_date + 7 * w
         /\ (Datetime.hour t, Datetime.minute t, Datetime.second t,
             Datetime.microsecond t) = (0, 0, 0, 0).
Proof.
  unfold record_ok. intros H.
  destruct r as [|[k1 [|name| |]] [|[k2 [|color| |]] [|[k3 [|week| |]]
    [|[k4 [|date| |]] [|[k5 [points| | |]] [|]]]]]]; try discriminate H.
  repeat (apply andb_prop in H as [H ?]).
  destruct (Iso.fromisoformat (PStr date)) as [t|] eqn:Ht; [|discriminate].
  destruct (Datetime.add start_date (Datetime.timedelta_weeks w)) as [t'|];
    [|discriminate].
  repeat match goal with
         | E : String.eqb _ _ = true |- _ => apply String.eqb_eq in E
         | E : andb _ _ = true |- _ => apply andb_prop in E as [? ?]
         | E : Z.eqb _ _ = true |- _ => apply Z.eqb_eq in E
         end.
  subst k1 k2 k3 k4 k5. exists name, color, week, date, points.
  split_and!; try assumption; try reflexivity.
  - simpl. congruence.
  - exists t. split_and!; try assumption; try reflexivity. congruence.
Qed.

Lemma records_ok_lookup (data : list dict) :
  forall k, records_ok k data = true ->
  forall i r, data !! i = Some r ->
  record_ok (Z.of_nat ((k + i) mod 12)) r = true.
Proof.
  induction data as [|x data IH]; intros k H i r Hr; [discriminate|].
  simpl in H. apply andb_prop in H as [Hx Hrest].
  destruct i as [|i]; simpl in Hr.
  - injection Hr as <-. rewrite Nat.add_0_r. exact Hx.
  - replace (k + Datatypes.S i)%nat with (Datatypes.S k + i)%nat by lia.
    exact (IH _ Hrest i r Hr).
Qed.

(** C5: each of the 60 records has exactly the keys individual, color,
    week, date and cumulative_points; individual is a string, color a hex
    colour, week a label of the form YYYY-Www, date the ISO-8601 text of the
    start of the record's week (2024-01-01 plus that many weeks, at
    midnight), and cumulative_points an integer. *)
Theorem exported_record_fields :
  exists data,
    generate_sample_data = Ok data
    /\ length data = 60%nat
    /\ forall i r, data !! i = Some r ->
         keys r = ["individual"; "color"; "week"; "date"; "cumulative_points"]
         /\ exists name color week date points,
              r = [ ("individual", PStr name); ("color", PStr color);
                    ("week", PStr week); ("date", PStr date);
                    ("cumulative_points", PInt points) ]
              /\ shaped "#hhhhhh" color = true
              /\ shaped "9999-W99" week = true
              /\ shaped "9999-99-99T99:99:99" date = true
              /\ Datetime.isoformat
                   <$> Datetime.add start_date
                         (Datetime.timedelta_weeks (Z.of_nat (i mod 12)))
                 = Ok date
              /\ exists t,
                   Iso.fromisoformat (PStr date) = Ok t
                   /\ Datetime.toordinal t
                      = Datetime.toordinal start_date + 7 * Z.of_nat (i mod 12)
                   /\ (Datetime.hour t, Datetime.minute t, Datetime.second t,
                       Datetime.microsecond t) = (0, 0, 0, 0).
Proof.
  exists sample. split; [exact generate_sample_data_eq|].
  split; [reflexivity|].
  intros i r Hr.
  assert (Hall : records_ok 0 sample = true) by (vm_compute; reflexivity).
  pose proof (records_ok_lookup sample 0 Hall i r Hr) as Hok.
  rewrite Nat.add_0_l in Hok.
  destruct (record_ok_spec _ _ Hok)
    as (name & color & week & date & points & -> & Hrest).
  split; [reflexivity|].
  exists name, color, week, date, points. split; [reflexivity | exact Hrest].
Qed.

Lemma dates_increasing_lookup (l : list (result Datetime.datetime)) :
  dates_increasing l = true ->
  forall i a b, l !! i = Some a -> l !! Datatypes.S i = Some b ->
  exists ta tb, a = Ok ta /\ b = Ok tb /\ datetime_ltb ta tb = true.
Proof.
  induction l as [|x l IH]; intros H i a b Ha Hb; [discriminate|].
  destruct l as [|y l]; [destruct i; discriminate|].
  destruct x as [tx|]; [|discriminate]. destruct y as [ty|]; [|discriminate].
  change (datetime_ltb tx ty && dates_increasing (Ok ty :: l) = true) in H.
  apply andb_prop in H as [Hxy Hrest].
  destruct i as [|i]; simpl in Ha, Hb.
  - injection Ha as <-. injection Hb as <-. eauto.
  - exact (IH Hrest i a b Ha Hb).
Qed.

(** C6: within the 12 records of each individual the week labels, which are
    the [%Y-W%U] labels of 2024-01-01 plus 0 to 11 weeks, are pairwise
    distinct, and the dates are strictly increasing in the order of the
    records. *)
Theorem week_labels_distinct_dates_increasing :
  exists data,
    generate_sample_data = Ok data
    /\ forall name, name ∈ names ->
         let rs := series name data in
         let labels := omap (str_field "week") rs in
         length rs = 12%nat
         /\ map Ok labels = map strftime_week (range 12)
         /\ NoDup labels
         /\ forall i a b,
              dates_of rs !! i = Some a -> dates_of rs !! Datatypes.S i = Some b ->
              exists ta tb, a = Ok ta /\ b = Ok tb /\ datetime_ltb ta tb = true.
Proof.
  exists sample. split; [exact generate_sample_data_eq|].
  intros name Hin. unfold names in Hin.
  repeat (apply elem_of_cons in Hin as [-> | Hin]);
    [| | | | | apply elem_of_nil in Hin; contradiction];
    (split; [vm_compute; reflexivity|];
     split; [vm_compute; reflexivity|];
     split; [apply (bool_decide_unpack _); vm_compute; reflexivity|];
     apply dates_increasing_lookup; vm_compute; reflexivity).
Qed.

Lemma has_table_color_spec (r : dict) :
  has_table_color r = true ->
  exists name color,
    str_field "individual" r = Some name
    /\ str_field "color" r = Some color
    /\ (name, color) ∈ color_table.
Proof.
  unfold has_table_color.
  destruct (str_field "individual" r) as [name|]; [|discriminate].
  destruct (str_field "color" r) as [color|]; [|discriminate].
  destruct (List.find _ color_table) as [[n c]|] eqn:Hfind; [|discriminate].
  intros Hc. apply String.eqb_eq in Hc. subst c.
  apply find_some in Hfind as [Hin Hn]. apply String.eqb_eq in Hn.
  simpl in Hn. subst n.
  exists name, color. repeat split. apply list_elem_of_In. exact Hin.
Qed.

Lemma has_color_spec (color : string) (r : dict) :
  has_color color r = true -> str_field "color" r = Some color.
Proof.
  unfold has_color. destruct (str_field "color" r) as [c|]; [|discriminate].
  intros H. apply String.eqb_eq in H. congruence.
Qed.

(** C10: the individuals carry the colours Alice #FF6B6B, Bob #4ECDC4,
    Charlie #45B7D1, Diana #FFA726 and Eve #AB47BC; every record has the
    colour of its individual, the same in all 12 of the individual's
    records. *)
Theorem record_colors :
  exists data,
    generate_sample_data = Ok data
    /\ map (fun d => (str_field "name" d, str_field "color" d)) individuals
       = map (fun nc => (Some (fst nc), Some (snd nc))) color_table
    /\ (forall r, r ∈ data ->
          exists name color,
            str_field "individual" r = Some name
            /\ str_field "color" r = Some color
            /\ (name, color) ∈ color_table)
    /\ (forall name color, (name, color) ∈ color_table ->
          length (series name data) = 12%nat
          /\ forall r, r ∈ series name data -> str_field "color" r = Some color).
Proof.
  exists sample. split; [exact generate_sample_data_eq|].
  split; [reflexivity|]. split.
  - intros r Hr. apply has_table_color_spec.
    revert r Hr. apply forallb_elem_of. vm_compute. reflexivity.
  - intros name color Hin. unfold color_table in Hin.
    repeat (apply elem_of_cons in Hin as [[= -> ->] | Hin]);
      [| | | | | apply elem_of_nil in Hin; contradiction];
      (split; [vm_compute; reflexivity|];
       intros r Hr; apply has_color_spec; revert r Hr;
       apply forallb_elem_of; vm_compute; reflexivity).
Qed.

(** ** The file system operations *)

Lemma bind_run {A B} (m : py A) (f : A -> py B) (w : world) :
  (m ≫= f) w
  = match m w with
    | (Ok a, w') => f a w'
    | (Raise e, w') => (Raise e, w')
    end.
Proof. reflexivity. Qed.

(** Opening a file for writing either raises and changes nothing, or leaves
    an empty text file at the path and changes nothing else. *)
Lemma open_w_cases (path : string) (w : world) :
  (exists e, Os.open_w path w = (Raise e, w))
  \/ Os.open_w path w
     = (Ok tt, mk_world (dirs w) (<[path := Text ""]> (files w)) (readonly w)
                        (stdout w)).
Proof.
  unfold Os.open_w. repeat case_match; eauto.
Qed.


Lemma open_w_succeeds (path : string) (w : world) :
  path <> "" -> Os.isdir w path = false -> Os.parent_ok w path = true ->
  Os.locked w (if Os.isfile w path then path else Path.dirname path) = false ->
  Os.open_w path w
  = (Ok tt, mk_world (dirs w) (<[path := Text ""]> (files w)) (readonly w)
                     (stdout w)).
Proof.
  intros Hp Hd Hpar Hl. unfold Os.open_w.
  apply String.eqb_neq in Hp. rewrite Hp, Hd, Hpar, Hl. reflexivity.
Qed.

Lemma no_parent_OSError (w : world) (p : string) :
  is_OSError (Os.no_parent w p) = true.
Proof. unfold Os.no_parent. repeat case_match; reflexivity. Qed.

Lemma mkdir_cases (name : string) (w : world) :
  (exists e, Os.mkdir name w = (Raise e, w) /\ is_OSError e = true)
  \/ Os.mkdir name w
     = (Ok tt, mk_world ({[name]} ∪ dirs w) (files w) (readonly w) (stdout w)).
Proof.
  unfold Os.mkdir. repeat case_match; eauto using no_parent_OSError.
Qed.

(** [os.makedirs] touches directories only. *)
Lemma makedirs_rec_frame (fuel : nat) :
  forall name exist_ok w r w',
    Os.makedirs_rec fuel name exist_ok w = (r, w') ->
    files w' = files w /\ stdout w' = stdout w /\ readonly w' = readonly w
    /\ dirs w ⊆ dirs w'.
Proof.
  induction fuel as [|fuel IH]; intros name exist_ok w r w' H.
  - injection H as <- <-. done.
  - simpl in H.
    destruct (Path.split name) as [h0 t0].
    destruct (if String.eqb t0 "" then Path.split h0 else (h0, t0)) as [h t].
    rewrite bind_run in H. unfold ask in H. rewrite bind_run in H.
    assert (Hlast : forall w1 r1 w2,
      try_except (Os.mkdir name)
        (fun e => w ← ask;
           if is_OSError e && (negb exist_ok || negb (Os.isdir w name))
           then raise e
           else if is_OSError e then mret tt else raise e) w1 = (r1, w2) ->
      files w2 = files w1 /\ stdout w2 = stdout w1 /\ readonly w2 = readonly w1
      /\ dirs w1 ⊆ dirs w2).
    { intros w1 r1 w2 Hm. unfold try_except in Hm.
      destruct (mkdir_cases name w1) as [(e & He & _) | Hok].
      - rewrite He in Hm. rewrite bind_run in Hm. unfold ask in Hm.
        repeat case_match; injection Hm as <- <-; done.
      - rewrite Hok in Hm. injection Hm as <- <-. simpl.
        split_and!; try reflexivity. apply union_subseteq_r. }
    destruct (negb (String.eqb h "") && negb (String.eqb t "")
              && negb (Os.exists_ w h)).
    + rewrite bind_run in H. unfold try_except in H.
      destruct (Os.makedirs_rec fuel h exist_ok w) as [[[]|e] w1] eqn:Hrec;
        apply IH in Hrec as (Hf & Hs & Hr & Hd).
      * unfold mret, py_ret in H.
        destruct (String.eqb t ".").
        -- injection H as <- <-. done.
        -- apply Hlast in H as (? & ? & ? & ?).
           split_and!; [congruence | congruence | congruence | by etrans].
      * destruct (is_FileExistsError e).
        -- unfold mret, py_ret, raise in H.
           destruct (String.eqb t ".").
           ++ injection H as <- <-. done.
           ++ apply Hlast in H as (? & ? & ? & ?).
              split_and!; [congruence | congruence | congruence | by etrans].
        -- unfold raise in H. injection H as <- <-. done.
    + unfold mret, py_ret in H. apply Hlast in H. exact H.
Qed.


(** ** The chart renderer *)

Lemma create_line_chart_run (data : list dict) (path : string) (w : world) :
  create_line_chart data path w
  = match for_each data group_body [] with
    | Raise e => (Raise e, w)
    | Ok groups =>
        if negb (Plot.supported (Plot.format_of path))
        then (Raise (ValueError ("Format '" +:+ Plot.format_of path
                                 +:+ "' is not supported")), w)
        else
          match Os.open_w (Plot.target path) w with
          | (Raise e, w1) => (Raise e, w1)
          | (Ok _, w1) =>
              (Ok tt,
               mk_world (dirs w1)
                 (<[Plot.target path
                    := stored (Plot.format_of path) (chart_image groups)]>
                    (files w1))
                 (readonly w1) (stdout w1 ++ ["Chart saved to: " +:+ path]))
          end
    end.
Proof.
  unfold create_line_chart, savefig, lift. rewrite bind_run.
  destruct (for_each data group_body []) as [groups|e]; [|reflexivity].
  rewrite bind_run.
  destruct (negb (Plot.supported (Plot.format_of path))); [reflexivity|].
  rewrite bind_run.
  destruct (Os.open_w (Plot.target path) w) as [[[]|e] w1]; reflexivity.
Qed.

(** A file name that ends in [.png] is written as it stands, as a PNG
    image. *)
Lemma png_extension (path : string) :
  snd (Path.splitext path) = ".png" ->
  Plot.format_of path = "png" /\ Plot.target path = path.
Proof.
  unfold Plot.format_of, Plot.target. intros ->. split; reflexivity.
Qed.

Lemma create_line_chart_png (data : list dict) (path : string) (w : world) :
  Plot.format_of path = "png" ->
  create_line_chart data path w
  = match for_each data group_body [] with
    | Raise e => (Raise e, w)
    | Ok groups =>
        match Os.open_w (Plot.target path) w with
        | (Raise e, w1) => (Raise e, w1)
        | (Ok _, w1) =>
            (Ok tt,
             mk_world (dirs w1)
               (<[Plot.target path := Image (chart_image groups)]> (files w1))
               (readonly w1) (stdout w1 ++ ["Chart saved to: " +:+ path]))
        end
    end.
Proof.
  intros Hf. rewrite create_line_chart_run, Hf. reflexivity.
Qed.

Lemma sample_groups_eq : for_each sample group_body [] = Ok sample_groups.
Proof. vm_compute. reflexivity. Qed.

(** The renderer on the chart's path, a PNG file. *)
Lemma create_line_chart_chart_path (data : list dict) (w : world) :
  create_line_chart data chart_path w
  = match for_each data group_body [] with
    | Raise e => (Raise e, w)
    | Ok groups =>
        match Os.open_w chart_path w with
        | (Raise e, w1) => (Raise e, w1)
        | (Ok _, w1) =>
            (Ok tt,
             mk_world (dirs w1)
               (<[chart_path := Image (chart_image groups)]> (files w1))
               (readonly w1) (stdout w1 ++ ["Chart saved to: " +:+ chart_path]))
        end
    end.
Proof. exact (create_line_chart_png data chart_path w eq_refl). Qed.

(** A renderer that raises has changed nothing. *)
Lemma create_line_chart_raise (data : list dict) (path : string) (w w' : world) e :
  create_line_chart data path w = (Raise e, w') -> w' = w.
Proof.
  rewrite create_line_chart_run.
  destruct (for_each data group_body []) as [groups|e']; [|congruence].
  destruct (negb (Plot.supported (Plot.format_of path))); [congruence|].
  destruct (open_w_cases (Plot.target path) w) as [[e' He] | Hok].
  - rewrite He. congruence.
  - rewrite Hok. discriminate.
Qed.








(** ** The JSON decoder reads what the encoder writes *)

Module JsonFacts.
Import Json.

#[local] Arguments String.append !_ _ / : simpl nomatch.

Lemma append_assoc (a b c : string) : (a +:+ b) +:+ c = a +:+ (b +:+ c).
Proof. induction a as [|x a IH]; simpl; [reflexivity | f_equal; exact IH]. Qed.

Lemma length_append (a b : string) :
  String.length (a +:+ b) = (String.length a + String.length b)%nat.
Proof. induction a as [|x a IH]; simpl; [reflexivity | f_equal; exact IH]. Qed.

(** *** Strings *)

Lemma scan_string_escape_char (c : ascii) (fuel : nat) (tail : string) :
  scan_string (S fuel) (escape_char c +:+ tail)
  = ('(str, rest) ← scan_string fuel tail; Ok (String c str, rest)).
Proof.
  destruct c as [[|] [|] [|] [|] [|] [|] [|] [|]]; reflexivity.
Qed.

Lemma escape_char_length (c : ascii) : (1 <= String.length (escape_char c))%nat.
Proof.
  destruct c as [[|] [|] [|] [|] [|] [|] [|] [|]]; vm_compute; lia.
Qed.

Lemma escape_length (s : string) :
  (String.length s <= String.length (escape s))%nat.
Proof.
  induction s as [|c s IH]; simpl; [lia|].
  rewrite length_append. pose proof (escape_char_length c). lia.
Qed.

Lemma scan_string_escape (s : string) :
  forall fuel tail,
    (String.length s < fuel)%nat ->
    scan_string fuel (escape s +:+ String DQUOTE tail) = Ok (s, tail).
Proof.
  induction s as [|c s IH]; intros fuel tail Hf.
  - destruct fuel; [simpl in Hf; lia|]. reflexivity.
  - destruct fuel; [simpl in Hf; lia|].
    simpl escape. rewrite append_assoc, scan_string_escape_char.
    rewrite IH by (simpl in Hf; lia). reflexivity.
Qed.

(** *** Integers *)

Lemma digit_value_digit_char (m : Z) :
  0 <= m <= 9 -> digit_value (digit_char m) = Some m.
Proof.
  intros H.
  assert (m = 0 \/ m = 1 \/ m = 2 \/ m = 3 \/ m = 4 \/ m = 5 \/ m = 6
          \/ m = 7 \/ m = 8 \/ m = 9) as Hm by lia.
  repeat destruct Hm as [-> | Hm]; try subst m; reflexivity.
Qed.

Lemma scan_digits_solid (s : string) (a : Z) :
  no_digit_head s -> scan_digits s a = (a, s).
Proof. destruct s as [|c s]; simpl; [reflexivity|]. by intros ->. Qed.

Lemma decimal_aux_append (fuel : nat) :
  forall n acc rest,
    decimal_aux fuel n acc +:+ rest = decimal_aux fuel n (acc +:+ rest).
Proof.
  induction fuel as [|fuel IH]; intros n acc rest; simpl; [reflexivity|].
  destruct (n <? 10); [reflexivity|]. rewrite IH. reflexivity.
Qed.

(** The digits [decimal_aux] puts in front of [acc] start with a digit that
    is not zero and read back, most significant first, as [n]. *)
Lemma decimal_aux_scan (fuel : nat) :
  forall n acc,
    0 < n < 10 ^ Z.of_nat (S fuel) ->
    exists m tail j,
      1 <= m <= 9 /\ 0 <= j
      /\ decimal_aux fuel n acc = String (digit_char m) tail
      /\ forall a, scan_digits tail a
                   = scan_digits acc (a * 10 ^ j + (n - m * 10 ^ j)).
Proof.
  assert (Hsmall : forall n acc, 0 < n < 10 ->
    exists m tail j,
      1 <= m <= 9 /\ 0 <= j
      /\ String (digit_char (n mod 10)) acc = String (digit_char m) tail
      /\ forall a, scan_digits tail a
                   = scan_digits acc (a * 10 ^ j + (n - m * 10 ^ j))).
  { intros n acc Hn. exists n, acc, 0.
    rewrite Z.mod_small by lia. split_and!; try lia; try reflexivity.
    intros a. f_equal. rewrite Z.pow_0_r. lia. }
  induction fuel as [|fuel IH]; intros n acc Hn.
  - simpl decimal_aux. apply Hsmall. simpl in Hn. lia.
  - simpl decimal_aux. destruct (Z.ltb_spec n 10) as [Hlt|Hge].
    + apply Hsmall. lia.
    + assert (Hdiv : 0 < n / 10 < 10 ^ Z.of_nat (S fuel)).
      { split; [apply Z.div_str_pos; lia|].
        apply Z.div_lt_upper_bound; [lia|].
        replace (10 * 10 ^ Z.of_nat (S fuel)) with (10 ^ Z.of_nat (S (S fuel)));
          [lia|].
        rewrite (Nat2Z.inj_succ (S fuel)), Z.pow_succ_r by lia. reflexivity. }
      destruct (IH (n / 10) (String (digit_char (n mod 10)) acc) Hdiv)
        as (m & tail & j & Hm & Hj & Heq & Hscan).
      exists m, tail, (j + 1). split_and!; [lia | lia | lia | exact Heq |].
      intros a. rewrite Hscan. simpl scan_digits.
      rewrite digit_value_digit_char
        by (pose proof (Z.mod_pos_bound n 10); lia).
      f_equal. rewrite Z.pow_add_r, Z.pow_1_r by lia.
      pose proof (Z.div_mod n 10). lia.
Qed.

Lemma decimal_scan (n : Z) (rest : string) :
  0 < n -> no_digit_head rest ->
  exists m tail,
    1 <= m <= 9
    /\ decimal n +:+ rest = String (digit_char m) tail
    /\ scan_digits tail m = (n, rest).
Proof.
  intros Hn Hrest. unfold decimal. rewrite decimal_aux_append.
  simpl ("" +:+ rest).
  destruct (decimal_aux_scan (Z.to_nat (Z.log2 n)) n rest)
    as (m & tail & j & Hm & Hj & Heq & Hscan).
  { split; [lia|].
    pose proof (Z.log2_spec n Hn) as [_ Hup].
    pose proof (Z.log2_nonneg n).
    rewrite Nat2Z.inj_succ, Z2Nat.id by lia.
    eapply Z.lt_le_trans; [exact Hup|].
    apply Z.pow_le_mono_l. lia. }
  exists m, tail. split_and!; [lia | lia | exact Heq |].
  rewrite Hscan. replace (m * 10 ^ j + (n - m * 10 ^ j)) with n by lia.
  apply scan_digits_solid, Hrest.
Qed.

Ltac digit_cases m :=
  let Hc := fresh "Hc" in
  assert (m = 1 \/ m = 2 \/ m = 3 \/ m = 4 \/ m = 5 \/ m = 6
          \/ m = 7 \/ m = 8 \/ m = 9) as Hc by lia;
  repeat destruct Hc as [-> | Hc]; try subst m.

Lemma scan_int_pos (m : Z) (tail : string) :
  1 <= m <= 9 ->
  scan_int (String (digit_char m) tail)
  = (let '(n, rest) := scan_digits tail m in Ok (PInt n, rest)).
Proof. intros Hm. digit_cases m; reflexivity. Qed.

Lemma scan_int_neg (m : Z) (tail : string) :
  1 <= m <= 9 ->
  scan_int (String "-" (String (digit_char m) tail))
  = (let '(n, rest) := scan_digits tail m in Ok (PInt (- n), rest)).
Proof. intros Hm. digit_cases m; reflexivity. Qed.

Lemma scan_value_digit (m : Z) (fuel : nat) (tail : string) :
  0 <= m <= 9 ->
  scan_value (S fuel) (String (digit_char m) tail)
  = scan_int (String (digit_char m) tail)
  /\ is_space (digit_char m) = false.
Proof.
  intros Hm. destruct (Z.eq_dec m 0) as [-> | Hnz]; [split; reflexivity|].
  digit_cases m; split; reflexivity.
Qed.

Lemma skip_ws_solid (c : ascii) (s : string) :
  is_space c = false -> skip_ws (String c s) = String c s.
Proof. intros H. simpl. rewrite H. reflexivity. Qed.

(** An integer written by the encoder is read back, whatever follows it
    that is not a digit. *)
Lemma scan_value_int (z : Z) (fuel : nat) (rest : string) :
  no_digit_head rest ->
  scan_value (S fuel) (int_repr z +:+ rest) = Ok (PInt z, rest)
  /\ skip_ws (int_repr z +:+ rest) = int_repr z +:+ rest.
Proof.
  intros Hrest. unfold int_repr.
  destruct (Z.ltb_spec z 0) as [Hneg|Hpos].
  - destruct (decimal_scan (- z) rest) as (m & tail & Hm & Heq & Hscan);
      [lia | exact Hrest |].
    simpl (String "-" _ +:+ rest). rewrite Heq.
    split; [|reflexivity].
    change (scan_value (S fuel) (String "-" (String (digit_char m) tail)))
      with (scan_int (String "-" (String (digit_char m) tail))).
    rewrite scan_int_neg, Hscan by exact Hm.
    rewrite Z.opp_involutive. reflexivity.
  - destruct (Z.eq_dec z 0) as [-> | Hnz]; [split; reflexivity|].
    destruct (decimal_scan z rest) as (m & tail & Hm & Heq & Hscan);
      [lia | exact Hrest |].
    rewrite Heq.
    destruct (scan_value_digit m fuel tail) as [Hv Hs]; [lia|].
    split; [|apply skip_ws_solid, Hs].
    rewrite Hv, scan_int_pos, Hscan by exact Hm. reflexivity.
Qed.

(** *** Strings as values *)

Lemma append_nil_r (s : string) : s +:+ "" = s.
Proof. induction s as [|c s IH]; simpl; [reflexivity | f_equal; exact IH]. Qed.

Lemma encode_string_append (s rest : string) :
  encode_string s +:+ rest = String DQUOTE (escape s +:+ String DQUOTE rest).
Proof.
  unfold encode_string. simpl. f_equal. rewrite append_assoc. reflexivity.
Qed.

Lemma scan_string_encoded (s rest : string) :
  scan_string (String.length (escape s +:+ String DQUOTE rest))
              (escape s +:+ String DQUOTE rest)
  = Ok (s, rest).
Proof.
  apply scan_string_escape. rewrite length_append. simpl.
  pose proof (escape_length s). lia.
Qed.

Lemma scan_value_string (s : string) (fuel : nat) (rest : string) :
  scan_value (S fuel) (encode_string s +:+ rest) = Ok (PStr s, rest)
  /\ skip_ws (encode_string s +:+ rest) = encode_string s +:+ rest.
Proof.
  rewrite encode_string_append. split; [|reflexivity].
  change (scan_value (S fuel) (String DQUOTE (escape s +:+ String DQUOTE rest)))
    with ('(str, rest') ← scan_string
             (String.length (escape s +:+ String DQUOTE rest))
             (escape s +:+ String DQUOTE rest);
          Ok (PStr str, rest')).
  rewrite scan_string_encoded. reflexivity.
Qed.

(** *** Records of strings and integers *)

#[local] Arguments encode : simpl never.
#[local] Arguments newline_indent : simpl never.

Lemma scan_value_scalar (v : pyval) (indent level fuel : nat) (rest : string) :
  scalar v -> no_digit_head rest ->
  scan_value (S fuel) (encode indent level v +:+ rest) = Ok (v, rest)
  /\ skip_ws (encode indent level v +:+ rest) = encode indent level v +:+ rest.
Proof.
  intros Hv Hrest. destruct v as [z|s| |]; try contradiction.
  - apply scan_value_int, Hrest.
  - apply scan_value_string.
Qed.

Lemma skip_ws_spaces (n : nat) (s : string) :
  skip_ws (spaces n +:+ s) = skip_ws s.
Proof. induction n as [|n IH]; simpl; [reflexivity | exact IH]. Qed.

Lemma skip_ws_newline_indent (indent level : nat) (s : string) :
  skip_ws (newline_indent indent level +:+ s) = skip_ws s.
Proof.
  unfold newline_indent, LF. rewrite append_assoc. simpl.
  apply skip_ws_spaces.
Qed.

Lemma newline_indent_head (indent level : nat) (s : string) :
  exists t, newline_indent indent level +:+ s = String (ascii_of_N 10) t.
Proof. unfold newline_indent, LF. rewrite append_assoc. simpl. eauto. Qed.

Lemma join_cons (sep c : string) (cs : list string) :
  join sep (c :: cs) = c +:+ sep_all sep cs.
Proof.
  revert c. induction cs as [|c' cs IH]; intros c.
  - simpl. rewrite append_nil_r. reflexivity.
  - change (join sep (c :: c' :: cs)) with (c +:+ sep +:+ join sep (c' :: cs)).
    rewrite IH. reflexivity.
Qed.

Lemma encode_dict_cons (indent level : nat) (kv : string * pyval) (d : dict) :
  encode indent level (PDict (kv :: d))
  = "{" +:+ newline_indent indent (S level)
    +:+ join ("," +:+ newline_indent indent (S level))
             (map (member_text indent (S level)) (kv :: d))
    +:+ newline_indent indent level +:+ "}".
Proof. reflexivity. Qed.

Lemma encode_list_cons (indent level : nat) (v : pyval) (l : list pyval) :
  encode indent level (PList (v :: l))
  = "[" +:+ newline_indent indent (S level)
    +:+ join ("," +:+ newline_indent indent (S level))
             (map (encode indent (S level)) (v :: l))
    +:+ newline_indent indent level +:+ "]".
Proof. reflexivity. Qed.

(** What follows a value inside an array or an object does not start with
    a digit. *)
Lemma closing_no_digit (indent l1 l2 : nat) (cs : list string) (rest : string) :
  no_digit_head
    (sep_all ("," +:+ newline_indent indent l1) cs
     +:+ newline_indent indent l2 +:+ rest).
Proof.
  destruct cs as [|c cs].
  - change (no_digit_head (newline_indent indent l2 +:+ rest)).
    destruct (newline_indent_head indent l2 rest) as [t ->]. reflexivity.
  - reflexivity.
Qed.

Lemma closing_length (indent l1 l2 : nat) (cs : list string) (rest : string) :
  (length cs
   < String.length (sep_all ("," +:+ newline_indent indent l1) cs
                    +:+ newline_indent indent l2 +:+ rest))%nat.
Proof.
  induction cs as [|c cs IH].
  - change (0 < String.length (newline_indent indent l2 +:+ rest))%nat.
    destruct (newline_indent_head indent l2 rest) as [t ->]. simpl. lia.
  - change (sep_all ?sep (c :: cs)) with (sep +:+ c +:+ sep_all sep cs).
    rewrite !length_append in *. simpl (String.length ","). simpl length. lia.
Qed.

Lemma scan_member_encoded (indent level fuel : nat) (k : string) (v : pyval)
    (rest : string) :
  scalar v -> no_digit_head rest ->
  scan_member (scan_value (S fuel)) (member_text indent level (k, v) +:+ rest)
  = Ok (k, v, rest)
  /\ exists t, member_text indent level (k, v) +:+ rest = String DQUOTE t.
Proof.
  intros Hv Hrest. unfold member_text. cbn [fst snd].
  rewrite append_assoc, encode_string_append.
  split; [|eauto].
  change (scan_member ?scan (String DQUOTE ?x))
    with ('(k, rest1) ← scan_string (String.length x) x;
          match skip_ws rest1 with
          | String ":" rest2 =>
              '(v, rest3) ← scan (skip_ws rest2);
              Ok (k, v, rest3)
          | _ => invalid
          end).
  rewrite scan_string_encoded.
  destruct (scan_value_scalar v indent level fuel rest Hv Hrest) as [Hscan Hskip].
  rewrite append_assoc.
  change (mbind ?f (Ok (k, ": " +:+ ?x)))
    with ('(v, rest3) ← scan_value (S fuel) (skip_ws x); Ok (k, v, rest3)).
  rewrite Hskip, Hscan. reflexivity.
Qed.

Lemma dict_set_fresh (acc : dict) (k : string) (v : pyval) :
  k ∉ keys acc -> dict_set acc k v = acc ++ [(k, v)].
Proof.
  induction acc as [|[k' v'] acc IH]; intros Hk; simpl; [reflexivity|].
  unfold keys in Hk. simpl in Hk. apply not_elem_of_cons in Hk as [Hne Hk].
  destruct (String.eqb_spec k' k) as [->|_]; [contradiction|].
  f_equal. apply IH, Hk.
Qed.

(** The rest of an object, after the members [acc], is read back. *)
Lemma scan_members_encoded (indent level fuel : nat) (d : dict) :
  forall acc n rest,
    (length d < n)%nat ->
    Forall (fun kv => scalar (snd kv)) d ->
    NoDup (keys (acc ++ d)) ->
    scan_members (scan_value (S fuel)) n acc
      (sep_all ("," +:+ newline_indent indent (S level))
               (map (member_text indent (S level)) d)
       +:+ newline_indent indent level +:+ String "}" rest)
    = Ok (PDict (acc ++ d), rest).
Proof.
  induction d as [|[k v] d IH]; intros acc n rest Hn Hflat Hdup.
  - destruct n as [|n]; [simpl in Hn; lia|].
    change (scan_members ?scan (S n) acc ?s)
      with (match skip_ws s with
            | String "}" rest => Ok (PDict acc, rest)
            | String "," rest =>
                '(k, v, rest') ← scan_member scan (skip_ws rest);
                scan_members scan n (dict_set acc k v) rest'
            | _ => invalid
            end).
    change (sep_all _ (map _ []) +:+ ?x) with x.
    rewrite skip_ws_newline_indent, app_nil_r. reflexivity.
  - destruct n as [|n]; [simpl in Hn; lia|].
    apply Forall_cons in Hflat as [Hv Hflat].
    change (scan_members ?scan (S n) acc ?s)
      with (match skip_ws s with
            | String "}" rest => Ok (PDict acc, rest)
            | String "," rest =>
                '(k, v, rest') ← scan_member scan (skip_ws rest);
                scan_members scan n (dict_set acc k v) rest'
            | _ => invalid
            end).
    change (map ?f ((k, v) :: d)) with (f (k, v) :: map f d).
    change (sep_all ?sep (?c :: ?cs)) with (sep +:+ c +:+ sep_all sep cs).
    rewrite !append_assoc.
    change (skip_ws ("," +:+ ?x)) with (String "," x).
    cbv beta iota.
    rewrite skip_ws_newline_indent.
    destruct (scan_member_encoded indent (S level) fuel k v
                (sep_all ("," +:+ newline_indent indent (S level))
                         (map (member_text indent (S level)) d)
                 +:+ newline_indent indent level +:+ String "}" rest) Hv)
      as [Hscan [t Ht]]; [apply closing_no_digit|].
    rewrite Ht at 1. change (skip_ws (String DQUOTE t)) with (String DQUOTE t).
    rewrite <- Ht, Hscan.
    change (mbind ?f (Ok (k, v, ?r)))
      with (scan_members (scan_value (S fuel)) n (dict_set acc k v) r).
    rewrite dict_set_fresh.
    + rewrite IH; [| simpl in Hn; lia | exact Hflat
                   | rewrite <- app_assoc; exact Hdup].
      rewrite <- app_assoc. reflexivity.
    + unfold keys in Hdup. rewrite map_app in Hdup.
      apply NoDup_app in Hdup as (_ & Hdis & _).
      intros Hin. apply (Hdis k Hin). simpl. constructor.
Qed.

Lemma scan_value_object (fuel : nat) (x t : string) :
  skip_ws x = String DQUOTE t ->
  scan_value (S fuel) (String "{" x)
  = ('(k, v, rest) ← scan_member (scan_value fuel) (String DQUOTE t);
     scan_members (scan_value fuel) (String.length rest) [(k, v)] rest).
Proof. intros H. simpl. rewrite H. reflexivity. Qed.

Lemma scan_value_array (fuel : nat) (x t : string) :
  skip_ws x = String "{" t ->
  scan_value (S fuel) (String "[" x)
  = ('(v, rest) ← scan_value fuel (String "{" t);
     scan_items (scan_value fuel) (String.length rest) [v] rest).
Proof. intros H. simpl. rewrite H. reflexivity. Qed.

(** A flat record written by the encoder is read back. *)
Lemma scan_value_record (indent level fuel : nat) (d : dict) (rest : string) :
  flat d ->
  scan_value (S (S fuel)) (encode indent level (PDict d) +:+ rest)
  = Ok (PDict d, rest)
  /\ exists t, encode indent level (PDict d) +:+ rest = String "{" t.
Proof.
  intros [Hdup Hflat]. destruct d as [|[k v] d].
  - split; [reflexivity | eexists; reflexivity].
  - rewrite encode_dict_cons.
    change (map ?f ((k, v) :: d)) with (f (k, v) :: map f d).
    rewrite join_cons, !append_assoc.
    change ("{" +:+ ?x) with (String "{" x).
    change ("}" +:+ rest) with (String "}" rest).
    split; [|eauto].
    apply Forall_cons in Hflat as [Hv Hflat].
    destruct (scan_member_encoded indent (S level) fuel k v
                (sep_all ("," +:+ newline_indent indent (S level))
                         (map (member_text indent (S level)) d)
                 +:+ newline_indent indent level +:+ String "}" rest) Hv)
      as [Hscan [t Ht]]; [apply closing_no_digit|].
    rewrite (scan_value_object (S fuel) _ t).
    + rewrite <- Ht, Hscan.
      change (mbind ?f (Ok (k, v, ?r)))
        with (scan_members (scan_value (S fuel)) (String.length r) [(k, v)] r).
      apply (scan_members_encoded indent level fuel d [(k, v)]);
        [| exact Hflat | exact Hdup].
      rewrite <- (length_map (member_text indent (S level)) d).
      apply closing_length.
    + rewrite skip_ws_newline_indent, Ht. reflexivity.
Qed.

(** The rest of an array of flat records, after the items [acc]. *)
Lemma scan_items_encoded (indent level fuel : nat) (data : list dict) :
  forall acc n rest,
    (length data < n)%nat ->
    Forall flat data ->
    scan_items (scan_value (S (S fuel))) n acc
      (sep_all ("," +:+ newline_indent indent (S level))
               (map (encode indent (S level)) (map PDict data))
       +:+ newline_indent indent level +:+ String "]" rest)
    = Ok (PList (acc ++ map PDict data), rest).
Proof.
  induction data as [|d data IH]; intros acc n rest Hn Hflat.
  - destruct n as [|n]; [simpl in Hn; lia|].
    change (scan_items ?scan (S n) acc ?s)
      with (match skip_ws s with
            | String "]" rest => Ok (PList acc, rest)
            | String "," rest =>
                '(v, rest') ← scan (skip_ws rest);
                scan_items scan n (acc ++ [v]) rest'
            | _ => invalid
            end).
    change (sep_all _ (map _ (map _ [])) +:+ ?x) with x.
    rewrite skip_ws_newline_indent, app_nil_r. reflexivity.
  - destruct n as [|n]; [simpl in Hn; lia|].
    apply Forall_cons in Hflat as [Hd Hflat].
    change (scan_items ?scan (S n) acc ?s)
      with (match skip_ws s with
            | String "]" rest => Ok (PList acc, rest)
            | String "," rest =>
                '(v, rest') ← scan (skip_ws rest);
                scan_items scan n (acc ++ [v]) rest'
            | _ => invalid
            end).
    change (map ?f (map ?g (d :: data))) with (f (g d) :: map f (map g data)).
    change (sep_all ?sep (?c :: ?cs)) with (sep +:+ c +:+ sep_all sep cs).
    rewrite !append_assoc.
    change (skip_ws ("," +:+ ?x)) with (String "," x).
    cbv beta iota.
    rewrite skip_ws_newline_indent.
    destruct (scan_value_record indent (S level) fuel d
                (sep_all ("," +:+ newline_indent indent (S level))
                         (map (encode indent (S level)) (map PDict data))
                 +:+ newline_indent indent level +:+ String "]" rest) Hd)
      as [Hscan [t Ht]].
    rewrite Ht at 1. change (skip_ws (String "{" t)) with (String "{" t).
    rewrite <- Ht, Hscan.
    change (mbind ?f (Ok (PDict d, ?r)))
      with (scan_items (scan_value (S (S fuel))) n (acc ++ [PDict d]) r).
    rewrite IH; [| simpl in Hn; lia | exact Hflat].
    rewrite <- app_assoc. reflexivity.
Qed.

(** Decoding the text of a sequence of flat records gives the sequence
    back, for every indentation. *)
Theorem loads_dumps_records (indent : nat) (data : list dict) :
  Forall flat data ->
  loads (dumps indent (PList (map PDict data))) = Ok (PList (map PDict data)).
Proof.
  intros Hflat. destruct data as [|d data]; [reflexivity|].
  apply Forall_cons in Hflat as [Hd Hflat].
  unfold loads, dumps.
  change (map PDict (d :: data)) with (PDict d :: map PDict data).
  rewrite encode_list_cons.
  change (map ?f (PDict d :: ?l)) with (f (PDict d) :: map f l).
  rewrite join_cons, !append_assoc.
  change ("[" +:+ ?x) with (String "[" x).
  change (skip_ws (String "[" ?x)) with (String "[" x).
  destruct (scan_value_record indent 1 0 d
              (sep_all ("," +:+ newline_indent indent 1)
                       (map (encode indent 1) (map PDict data))
               +:+ newline_indent indent 0 +:+ "]") Hd)
    as [_ [t Ht]].
  destruct (newline_indent_head indent 1
              (encode indent 1 (PDict d)
               +:+ sep_all ("," +:+ newline_indent indent 1)
                     (map (encode indent 1) (map PDict data))
               +:+ newline_indent indent 0 +:+ "]")) as [u Hu].
  rewrite Hu. destruct u as [|c1 [|c2 u]].
  1, 2: exfalso;
       pose proof (f_equal String.length Hu) as Hlen;
       rewrite !length_append in Hlen;
       unfold newline_indent, LF in Hlen;
       rewrite !length_append in Hlen; simpl in Hlen; lia.
  change (String.length (String "[" (String _ (String c1 (String c2 u)))))
    with (S (S (S (S (String.length u))))).
  rewrite (scan_value_array _ _ t) by (rewrite <- Hu, skip_ws_newline_indent, Ht; reflexivity).
  rewrite <- Ht.
  rewrite (proj1 (scan_value_record indent 1 (S (String.length u)) d _ Hd)).
  change (mbind ?f (Ok (PDict d, ?r)))
    with (scan_items (scan_value (S (S (S (String.length u)))))
            (String.length r) [PDict d] r).
  change (mbind ?f ?m)
    with (match m with
          | Ok (v, rest) => match skip_ws rest with "" => Ok v | _ => invalid end
          | Raise e => Raise e
          end).
  rewrite (scan_items_encoded indent 0 (S (String.length u)) data [PDict d]);
    [reflexivity | | exact Hflat].
  rewrite <- (length_map PDict data).
  rewrite <- (length_map (encode indent 1) (map PDict data)).
  apply closing_length.
Qed.

End JsonFacts.

(** ** The data exporter *)

Lemma save_data_as_json_run (data : list dict) (path : string) (w : world) :
  save_data_as_json data path w
  = match Os.open_w path w with
    | (Raise e, w1) => (Raise e, w1)
    | (Ok _, w1) =>
        match Os.fwrite path (Json.dumps 2 (PList (map PDict data))) w1 with
        | (Raise e, w2) => (Raise e, w2)
        | (Ok _, w2) =>
            (Ok tt,
             mk_world (dirs w2) (files w2) (readonly w2)
                      (stdout w2 ++ ["Data saved to: " +:+ path]))
        end
    end.
Proof.
  unfold save_data_as_json. rewrite !bind_run.
  destruct (Os.open_w path w) as [[[]|e] w1]; [|reflexivity].
  rewrite !bind_run.
  destruct (Os.fwrite path _ w1) as [[[]|e] w2]; reflexivity.
Qed.

(** The exporter either raises and leaves every file as it was, or leaves
    the JSON text of the records at the path. *)
Lemma save_data_as_json_cases (data : list dict) (path : string) (w : world) :
  (exists e, save_data_as_json data path w = (Raise e, w))
  \/ exists w',
       save_data_as_json data path w = (Ok tt, w')
       /\ files w' = <[path := Text (Json.dumps 2 (PList (map PDict data)))]> (files w)
       /\ dirs w' = dirs w.
Proof.
  rewrite save_data_as_json_run.
  destruct (open_w_cases path w) as [[e He] | Hok].
  - left. exists e. rewrite He. reflexivity.
  - right. rewrite Hok. unfold Os.fwrite. simpl.
    rewrite lookup_insert_eq. simpl. eexists. split; [reflexivity|].
    simpl. split; [apply insert_insert_eq | reflexivity].
Qed.

Lemma record_ok_flat (w : Z) (r : dict) : record_ok w r = true -> flat r.
Proof.
  intros H.
  destruct (record_ok_spec w r H) as (name & color & week & date & points & -> & _).
  split.
  - apply (bool_decide_unpack _). vm_compute. reflexivity.
  - repeat constructor.
Qed.

(** The synthesized records are flat: five distinct keys, scalar values. *)
Lemma sample_flat : Forall flat sample.
Proof.
  apply Forall_lookup. intros i r Hr.
  apply (record_ok_flat (Z.of_nat ((0 + i) mod 12))).
  apply (records_ok_lookup sample 0); [vm_compute; reflexivity | exact Hr].
Qed.

(** Whatever flat records the exporter has written, decoding the file gives
    them back. *)
Lemma save_data_as_json_round_trip (data : list dict) (path : string)
    (w w' : world) :
  Forall flat data ->
  save_data_as_json data path w = (Ok tt, w') ->
  exists text,
    files w' !! path = Some (Text text)
    /\ text = Json.dumps 2 (PList (map PDict data))
    /\ Json.loads text = Ok (PList (map PDict data)).
Proof.
  intros Hflat Hsave.
  destruct (save_data_as_json_cases data path w)
    as [[e He] | (w2 & Hrun & Hfiles & _)]; [congruence|].
  rewrite Hrun in Hsave. injection Hsave as <-.
  eexists. split; [rewrite Hfiles; apply lookup_insert_eq|].
  split; [reflexivity|]. apply JsonFacts.loads_dumps_records, Hflat.
Qed.

(** C4: when the exporter has written the synthesized records to a file,
    the file holds their JSON text with two-space indentation, and decoding
    that text gives back the same sequence of records, each with the same
    individual, color, week, date and cumulative_points. *)
Theorem export_round_trip :
  forall data path w w',
    generate_sample_data = Ok data ->
    save_data_as_json data path w = (Ok tt, w') ->
    exists text,
      files w' !! path = Some (Text text)
      /\ text = Json.dumps 2 (PList (map PDict data))
      /\ Json.loads text = Ok (PList (map PDict data)).
Proof.
  intros data path w w' Hgen Hsave.
  rewrite generate_sample_data_eq in Hgen. injection Hgen as <-.
  exact (save_data_as_json_round_trip sample path w w' sample_flat Hsave).
Qed.

Lemma export_round_trip_witness :
  exists text,
    files (snd (save_data_as_json sample "point_data.json" empty_world))
      !! "point_data.json" = Some (Text text)
    /\ Json.loads text = Ok (PList (map PDict sample)).
Proof.
  destruct (export_round_trip sample "point_data.json" empty_world
              (snd (save_data_as_json sample "point_data.json" empty_world)))
    as (text & Hfile & _ & Hloads).
  - vm_compute. reflexivity.
  - vm_compute. reflexivity.
  - exists text. split; [exact Hfile | exact Hloads].
Defined.

(** ** Orchestration *)

Lemma main_run (w : world) :
  main w
  = match Os.makedirs output_dir true (after_banner w) with
    | (Raise e, w1) => (Raise e, w1)
    | (Ok _, w1) =>
        match create_line_chart sample chart_path w1 with
        | (Raise e, w2) => (Raise e, w2)
        | (Ok _, w2) =>
            match save_data_as_json sample data_path w2 with
            | (Raise e, w3) => (Raise e, w3)
            | (Ok _, w3) =>
                (Ok tt,
                 mk_world (dirs w3) (files w3) (readonly w3)
                   (stdout w3
                    ++ ["Chart generation completed successfully!";
                        "Chart location: " +:+ chart_path;
                        "Data location: " +:+ data_path]))
            end
        end
    end.
Proof.
  unfold main. rewrite bind_run. unfold print at 1. fold (after_banner w).
  rewrite bind_run. unfold lift. rewrite generate_sample_data_eq.
  rewrite bind_run.
  destruct (Os.makedirs output_dir true (after_banner w)) as [[[]|e] w1];
    [|reflexivity].
  rewrite bind_run.
  destruct (create_line_chart sample chart_path w1) as [[[]|e] w2];
    [|reflexivity].
  rewrite bind_run.
  destruct (save_data_as_json sample data_path w2) as [[[]|e] w3];
    [|reflexivity].
  unfold print, mbind, py_bind. simpl.
  rewrite <- !app_assoc. reflexivity.
Qed.

(** C8: [main] stops at the first step that raises and returns that
    exception: a failure of [os.makedirs], of the renderer or of the exporter
    is the outcome of the run.  When the renderer raises, the exporter has
    not run: no file has changed, and the data file in particular is as it
    was before the run. *)
Theorem main_aborts_on_first_error :
  forall data w,
    generate_sample_data = Ok data ->
    (forall e w1,
       Os.makedirs output_dir true (after_banner w) = (Raise e, w1) ->
       main w = (Raise e, w1) /\ files w1 = files w)
    /\ (forall w1 e w2,
          Os.makedirs output_dir true (after_banner w) = (Ok tt, w1) ->
          create_line_chart data chart_path w1 = (Raise e, w2) ->
          main w = (Raise e, w2)
          /\ files w2 = files w
          /\ files w2 !! data_path = files w !! data_path
          /\ stdout w2 = stdout (after_banner w))
    /\ (forall w1 w2 e w3,
          Os.makedirs output_dir true (after_banner w) = (Ok tt, w1) ->
          create_line_chart data chart_path w1 = (Ok tt, w2) ->
          save_data_as_json data data_path w2 = (Raise e, w3) ->
          main w = (Raise e, w3)
          /\ files w3 !! data_path = files w !! data_path)
    /\ (forall w', main w = (Ok tt, w') ->
          exists w1 w2 w3,
            Os.makedirs output_dir true (after_banner w) = (Ok tt, w1)
            /\ create_line_chart data chart_path w1 = (Ok tt, w2)
            /\ save_data_as_json data data_path w2 = (Ok tt, w3)).
Proof.
  intros data w Hgen.
  rewrite generate_sample_data_eq in Hgen. injection Hgen as <-.
  split_and!.
  - intros e w1 Hm. rewrite main_run, Hm. split; [reflexivity|].
    apply makedirs_rec_frame in Hm as (Hf & _). exact Hf.
  - intros w1 e w2 Hm Hc. rewrite main_run, Hm, Hc.
    apply create_line_chart_raise in Hc. subst w2.
    apply makedirs_rec_frame in Hm as (Hf & Hs & _).
    split_and!; [reflexivity | exact Hf | | exact Hs].
    rewrite Hf. reflexivity.
  - intros w1 w2 e w3 Hm Hc Hs. rewrite main_run, Hm, Hc, Hs.
    split; [reflexivity|].
    destruct (save_data_as_json_cases sample data_path w2)
      as [[e' He] | (w4 & Hrun & _)]; [|congruence].
    assert (w3 = w2) as -> by congruence.
    apply makedirs_rec_frame in Hm as (Hf & _).
    rewrite create_line_chart_chart_path in Hc.
    destruct (for_each sample group_body []) as [groups|]; [|discriminate].
    destruct (open_w_cases chart_path w1) as [[e'' He''] | Hok].
    + rewrite He'' in Hc. discriminate.
    + rewrite Hok in Hc. injection Hc as <-. simpl.
      rewrite !lookup_insert_ne by discriminate.
      rewrite Hf. reflexivity.
  - intros w'. rewrite main_run.
    destruct (Os.makedirs output_dir true (after_banner w))
      as [[[]|e] w1] eqn:Hm; [|discriminate].
    destruct (create_line_chart sample chart_path w1)
      as [[[]|e] w2] eqn:Hc; [|discriminate].
    destruct (save_data_as_json sample data_path w2)
      as [[[]|e] w3] eqn:Hs; [|discriminate].
    intros _. exists w1, w2, w3. split_and!; [reflexivity | exact Hc | exact Hs].
Qed.

Lemma main_aborts_on_first_error_witness :
  main blocked_world
  = (Raise (IsADirectoryError chart_path), after_banner blocked_world)
  /\ files (after_banner blocked_world) !! data_path = None.
Proof.
  destruct (main_aborts_on_first_error sample blocked_world
              generate_sample_data_eq) as (_ & Hrender & _).
  destruct (Hrender (after_banner blocked_world)
              (IsADirectoryError chart_path) (after_banner blocked_world))
    as (Hmain & _ & Hdata & _).
  - vm_compute. reflexivity.
  - vm_compute. reflexivity.
  - split; [exact Hmain|]. rewrite Hdata. reflexivity.
Defined.

(** * Further properties *)

(** ** The synthesizer on any table of individuals *)

Lemma week_body_entry (name color : pyval) (w : nat) (p : Z) (d : list dict) :
  (w < 12)%nat ->
  week_body (individual_entry (name, color)) (Z.of_nat w) (p, d)
  = Ok (p + increment name (Z.of_nat w),
        d ++ [ [ ("individual", name); ("color", color);
                 ("week", PStr (week_label (Z.of_nat w)));
                 ("date", PStr (week_start w));
                 ("cumulative_points", PInt (p + increment name (Z.of_nat w))) ] ]).
Proof.
  intros Hw.
  do 12 (destruct w as [|w]; [vm_compute; reflexivity|]). lia.
Qed.

(** The inner loop from week [k] on, entered with the total of the weeks
    before [k]. *)
Lemma weeks_loop_entry (name color : pyval) (n : nat) :
  forall k d,
    (k + n <= 12)%nat ->
    for_each (map Z.of_nat (seq k n)) (week_body (individual_entry (name, color)))
             (match k with O => 0 | S k' => total name k' end, d)
    = Ok (match (k + n)%nat with O => 0 | S m => total name m end,
          d ++ map (week_record name color) (seq k n)).
Proof.
  induction n as [|n IH]; intros k d Hk.
  - rewrite Nat.add_0_r, app_nil_r. reflexivity.
  - cbn [seq map for_each].
    rewrite week_body_entry by lia. cbn [mbind result_bind].
    replace (match k with O => 0 | S k' => total name k' end
             + increment name (Z.of_nat k))
      with (total name k) by (destruct k; [symmetry; apply Z.add_0_l | reflexivity]).
    rewrite (IH (S k) _) by lia.
    rewrite <- app_assoc, Nat.add_succ_r. reflexivity.
Qed.

Lemma individual_body_entry (name color : pyval) (data : list dict) :
  individual_body (individual_entry (name, color)) data
  = Ok (data ++ map (week_record name color) (seq 0 12)).
Proof.
  unfold individual_body, range.
  rewrite (weeks_loop_entry name color 12 0 data) by lia.
  reflexivity.
Qed.

(** The loop nest over any table of individuals. *)
Lemma table_loop (table : list (pyval * pyval)) :
  forall data,
    for_each (map individual_entry table) individual_body data
    = Ok (data ++ flat_map (fun nc => map (week_record (fst nc) (snd nc)) (seq 0 12))
                           table).
Proof.
  induction table as [|[name color] table IH]; intros data.
  - simpl. rewrite app_nil_r. reflexivity.
  - cbn [map for_each flat_map fst snd].
    rewrite individual_body_entry. cbn [mbind result_bind].
    rewrite IH, <- app_assoc. reflexivity.
Qed.

Lemma total_step (name : pyval) (w : nat) :
  0 < total name w /\ total name w < total name (S w).
Proof.
  split.
  - induction w as [|w IH]; simpl total.
    + apply increment_pos. lia.
    + pose proof (increment_pos name (Z.of_nat (S w))). lia.
  - change (total name (S w)) with (total name w + increment name (Z.of_nat (S w))).
    pose proof (increment_pos name (Z.of_nat (S w))). lia.
Qed.

(** X1: the loop nest of the synthesizer, run on any table of individuals
    written as the source writes them, returns for each individual in turn
    the 12 records of weeks 0 to 11: name, colour, the label 2024-Www, the
    start of the week, and the sum of the gains of weeks 0 to w.  An empty
    table gives an empty sequence.  The synthesizer is this loop nest on the
    five fixed individuals; the weeks start on 2024-01-01 and every 7 days
    after it; and for every name the totals are positive and grow strictly
    from week to week. *)
Theorem synthesizer_loops :
  (forall table : list (pyval * pyval),
     for_each (map individual_entry table) individual_body []
     = Ok (flat_map
             (fun nc => map (week_record (fst nc) (snd nc)) (seq 0 12)) table))
  /\ generate_sample_data
     = Ok (flat_map
             (fun nc => map (week_record (PStr (fst nc)) (PStr (snd nc))) (seq 0 12))
             color_table)
  /\ map week_start (seq 0 12)
     = [ "2024-01-01T00:00:00"; "2024-01-08T00:00:00"; "2024-01-15T00:00:00";
         "2024-01-22T00:00:00"; "2024-01-29T00:00:00"; "2024-02-05T00:00:00";
         "2024-02-12T00:00:00"; "2024-02-19T00:00:00"; "2024-02-26T00:00:00";
         "2024-03-04T00:00:00"; "2024-03-11T00:00:00"; "2024-03-18T00:00:00" ]
  /\ (forall name w, 0 < total name w /\ total name w < total name (S w)).
Proof.
  split; [|split; [|split]].
  - intros table. rewrite table_loop. reflexivity.
  - change generate_sample_data
      with (for_each (map individual_entry
                        (map (fun nc => (PStr (fst nc), PStr (snd nc))) color_table))
                     individual_body []).
    rewrite table_loop. cbn [app]. unfold color_table. reflexivity.
  - vm_compute. reflexivity.
  - exact total_step.
Qed.

(** ** The grouping loop of the renderer *)

Lemma for_each_app {A S} (xs ys : list A) (body : A -> S -> result S) (s : S) :
  for_each (xs ++ ys) body s = (s' ← for_each xs body s; for_each ys body s').
Proof.
  revert s. induction xs as [|x xs IH]; intros s; simpl; [reflexivity|].
  destruct (body x s) as [s'|e]; simpl; [apply IH | reflexivity].
Qed.

(** *** Keys *)

Lemma key_eqb_eq (a b : pyval) : key_eqb a b = true -> a = b.
Proof.
  destruct a, b; simpl; try discriminate.
  - intros H. apply Z.eqb_eq in H. congruence.
  - intros H. apply String.eqb_eq in H. congruence.
Qed.

Lemma key_eqb_refl (a : pyval) : hashable a = true -> key_eqb a a = true.
Proof.
  destruct a; simpl; try discriminate; intros _.
  - apply Z.eqb_refl.
  - apply String.eqb_refl.
Qed.

Lemma key_eqb_sym (a b : pyval) : key_eqb a b = key_eqb b a.
Proof.
  destruct a, b; simpl; try reflexivity.
  - apply Z.eqb_sym.
  - apply String.eqb_sym.
Qed.

(** *** One round of the grouping loop *)

Lemma view_hashable (r : dict) (v : point) :
  view r = Ok v -> hashable (p_name v) = true.
Proof.
  unfold view. destruct (getitem r "individual") as [name|]; [|discriminate].
  simpl. destruct (hashable name) eqn:Hh; [|discriminate]. simpl.
  destruct (getitem r "color"); [|discriminate]. simpl.
  destruct (getitem r "date") as [d|]; [|discriminate]. simpl.
  destruct (Iso.fromisoformat d); [|discriminate]. simpl.
  destruct (getitem r "cumulative_points"); [|discriminate]. simpl.
  intros [= <-]. exact Hh.
Qed.

Lemma group_body_view (r : dict) (v : point) (acc : list (pyval * group)) :
  view r = Ok v -> group_body r acc = Ok (step v acc).
Proof.
  unfold view, group_body, step.
  destruct (getitem r "individual") as [name|]; [|discriminate].
  simpl. destruct (hashable name); [|discriminate]. simpl.
  destruct (getitem r "color") as [color|]; [|discriminate]. simpl.
  destruct (getitem r "date") as [d|]; [|discriminate]. simpl.
  destruct (Iso.fromisoformat d) as [t|]; [|discriminate]. simpl.
  destruct (getitem r "cumulative_points") as [p|]; [|discriminate]. simpl.
  intros [= <-]. simpl.
  destruct (contains acc name); reflexivity.
Qed.

Lemma for_each_views (data : list dict) (vs : list point) :
  Forall2 (fun r v => view r = Ok v) data vs ->
  forall acc,
    for_each data group_body acc = Ok (fold_left (fun a v => step v a) vs acc).
Proof.
  induction 1 as [|r v data vs Hv _ IH]; intros acc; [reflexivity|].
  simpl. rewrite (group_body_view r v acc Hv). simpl. apply IH.
Qed.

(** *** Names in first-seen order *)

Lemma first_seen_snoc (ns : list pyval) (n : pyval) :
  first_seen (ns ++ [n]) = see (first_seen ns) n.
Proof. unfold first_seen. rewrite fold_left_app. reflexivity. Qed.

Lemma existsb_key (seen : list pyval) (n : pyval) :
  existsb (fun m => key_eqb m n) seen = true -> n ∈ seen.
Proof.
  intros H. apply existsb_exists in H as (m & Hm & Heq).
  apply key_eqb_eq in Heq. subst m. apply list_elem_of_In, Hm.
Qed.

Lemma not_existsb_key (seen : list pyval) (n m : pyval) :
  existsb (fun m => key_eqb m n) seen = false -> m ∈ seen -> key_eqb m n = false.
Proof.
  intros H Hm. destruct (key_eqb m n) eqn:Heq; [|reflexivity].
  assert (existsb (fun m => key_eqb m n) seen = true); [|congruence].
  apply existsb_exists. exists m. split; [apply list_elem_of_In, Hm | exact Heq].
Qed.

Lemma see_elem (seen : list pyval) (n m : pyval) :
  m ∈ see seen n <-> m ∈ seen \/ m = n.
Proof.
  unfold see. destruct (existsb _ seen) eqn:He.
  - split; [tauto|]. intros [H | ->]; [exact H | apply existsb_key, He].
  - rewrite elem_of_app, list_elem_of_singleton. tauto.
Qed.

Lemma fold_see_elem (ns : list pyval) :
  forall seen m, m ∈ fold_left see ns seen <-> m ∈ seen \/ m ∈ ns.
Proof.
  induction ns as [|n ns IH]; intros seen m; simpl.
  - rewrite elem_of_nil. tauto.
  - rewrite IH, see_elem, elem_of_cons. tauto.
Qed.

Lemma first_seen_elem (ns : list pyval) (m : pyval) :
  m ∈ first_seen ns <-> m ∈ ns.
Proof.
  unfold first_seen. fold see. rewrite fold_see_elem, elem_of_nil. tauto.
Qed.

Lemma fold_see_NoDup (ns : list pyval) :
  Forall (fun n => hashable n = true) ns ->
  forall seen, NoDup seen -> NoDup (fold_left see ns seen).
Proof.
  induction 1 as [|n ns Hn _ IH]; intros seen Hseen; simpl; [exact Hseen|].
  apply IH. unfold see. destruct (existsb _ seen) eqn:He; [exact Hseen|].
  apply NoDup_app. split_and!; [exact Hseen | | apply NoDup_singleton].
  intros m Hm Hmn. apply list_elem_of_singleton in Hmn. subst m.
  pose proof (not_existsb_key seen n n He Hm) as Hne.
  rewrite key_eqb_refl in Hne by exact Hn. discriminate.
Qed.

Lemma first_seen_NoDup (ns : list pyval) :
  Forall (fun n => hashable n = true) ns -> NoDup (first_seen ns).
Proof.
  intros H. unfold first_seen. fold see. apply fold_see_NoDup; [exact H|].
  apply NoDup_nil_2.
Qed.

(** *** Updating a group in place *)

Lemma contains_map (G : pyval -> group) (F : list pyval) (n : pyval) :
  contains (map (fun m => (m, G m)) F) n = existsb (fun m => key_eqb m n) F.
Proof.
  induction F as [|m F IH]; simpl; [reflexivity|]. rewrite IH. reflexivity.
Qed.

Lemma update_map (G : pyval -> group) (F : list pyval) (n : pyval)
    (f : group -> group) :
  NoDup F ->
  update (map (fun m => (m, G m)) F) n f
  = map (fun m => (m, if key_eqb m n then f (G m) else G m)) F.
Proof.
  induction 1 as [|m F Hm _ IH]; simpl; [reflexivity|].
  destruct (key_eqb m n) eqn:Heq.
  - f_equal. apply map_ext_in. intros m' Hm'.
    destruct (key_eqb m' n) eqn:Heq'; [|reflexivity].
    apply key_eqb_eq in Heq, Heq'. subst m m'.
    exfalso. apply Hm, list_elem_of_In, Hm'.
  - f_equal. exact IH.
Qed.

Lemma update_new (acc : list (pyval * group)) (n : pyval) (g : group)
    (f : group -> group) :
  hashable n = true ->
  (forall kg, kg ∈ acc -> key_eqb (fst kg) n = false) ->
  update (acc ++ [(n, g)]) n f = acc ++ [(n, f g)].
Proof.
  intros Hn. induction acc as [|[k g'] acc IH]; intros H; simpl.
  - rewrite key_eqb_refl by exact Hn. reflexivity.
  - pose proof (H (k, g') ltac:(constructor)) as Hk. simpl in Hk.
    rewrite Hk. f_equal.
    apply IH. intros kg Hkg. apply H. constructor. exact Hkg.
Qed.

(** *** The points of an individual *)

Lemma points_named_snoc (m : pyval) (vs : list point) (v : point) :
  points_named m (vs ++ [v])
  = points_named m vs ++ (if key_eqb (p_name v) m then [v] else []).
Proof. unfold points_named. rewrite List.filter_app. reflexivity. Qed.

Lemma points_named_nil (n : pyval) (vs : list point) :
  (forall v, v ∈ vs -> key_eqb (p_name v) n = false) -> points_named n vs = [].
Proof.
  induction vs as [|v vs IH]; intros H; [reflexivity|].
  unfold points_named in *. simpl. rewrite (H v) by constructor.
  apply IH. intros v' Hv'. apply H. constructor. exact Hv'.
Qed.

Lemma points_named_cons (m : pyval) (vs : list point) :
  hashable m = true -> m ∈ map p_name vs ->
  exists v rest, points_named m vs = v :: rest.
Proof.
  intros Hm Hin. apply list_elem_of_fmap in Hin as (v & -> & Hv).
  induction vs as [|v' vs IH]; [apply elem_of_nil in Hv; contradiction|].
  unfold points_named in *. simpl.
  destruct (key_eqb (p_name v') (p_name v)) eqn:Heq; [eauto|].
  apply elem_of_cons in Hv as [-> | Hv]; [|exact (IH Hv)].
  rewrite key_eqb_refl in Heq by exact Hm. discriminate.
Qed.

(** One more record changes the groups as one round of the loop does. *)
Lemma grouped_snoc (vs : list point) (v : point) :
  Forall (fun v => hashable (p_name v) = true) (vs ++ [v]) ->
  grouped (vs ++ [v]) = step v (grouped vs).
Proof.
  intros Hall. apply Forall_app in Hall as [Hvs Hv].
  apply Forall_cons in Hv as [Hv _].
  assert (Hns : Forall (fun n => hashable n = true) (map p_name vs))
    by (apply Forall_fmap; exact Hvs).
  pose proof (first_seen_NoDup _ Hns) as Hdup.
  unfold grouped, step. rewrite (map_app p_name vs [v]).
  change (map p_name [v]) with [p_name v].
  rewrite first_seen_snoc, contains_map. unfold see.
  set (F := first_seen (map p_name vs)) in *.
  set (n := p_name v) in *.
  destruct (existsb (fun m => key_eqb m n) F) eqn:He.
  - rewrite (update_map _ F n _ Hdup).
    rewrite (update_map (fun m => if key_eqb m n then _ else _) F n _ Hdup).
    apply map_ext_in. intros m Hm. f_equal.
    unfold group_of. rewrite points_named_snoc. fold n.
    rewrite (key_eqb_sym n m).
    destruct (key_eqb m n) eqn:Heq.
    + assert (Hin : m ∈ map p_name vs)
        by (apply first_seen_elem, list_elem_of_In, Hm).
      assert (Hm' : hashable m = true).
      { apply key_eqb_eq in Heq. subst m. exact Hv. }
      destruct (points_named_cons m vs Hm' Hin) as (v0 & rest & ->).
      unfold add_points, add_date. simpl. rewrite !map_app. reflexivity.
    + rewrite app_nil_r. reflexivity.
  - assert (Hmiss : forall kg, kg ∈ map (fun m => (m, group_of m vs)) F ->
                               key_eqb (fst kg) n = false).
    { intros kg Hkg. apply list_elem_of_fmap in Hkg as (m & -> & Hm).
      exact (not_existsb_key F n m He Hm). }
    rewrite (update_new _ n _ _ Hv Hmiss).
    rewrite (update_new _ n _ _ Hv Hmiss).
    rewrite map_app. f_equal.
    + apply map_ext_in. intros m Hm. f_equal.
      unfold group_of. rewrite points_named_snoc. fold n.
      rewrite (key_eqb_sym n m),
        (not_existsb_key F n m He (proj2 (list_elem_of_In _ _) Hm)), app_nil_r.
      reflexivity.
    + simpl. do 2 f_equal. unfold group_of. rewrite points_named_snoc. fold n.
      rewrite key_eqb_refl by exact Hv.
      rewrite points_named_nil; [reflexivity|].
      intros v' Hv'. apply (not_existsb_key F n (p_name v') He).
      apply first_seen_elem, list_elem_of_fmap. eauto.
Qed.

Lemma fold_step_grouped (vs : list point) :
  Forall (fun v => hashable (p_name v) = true) vs ->
  fold_left (fun a v => step v a) vs [] = grouped vs.
Proof.
  induction vs as [|v vs IH] using rev_ind; intros Hall; [reflexivity|].
  rewrite fold_left_app. simpl.
  rewrite IH by (apply Forall_app in Hall as [H _]; exact H).
  symmetry. apply grouped_snoc, Hall.
Qed.

(** The grouping loop turns a sequence of well-formed records into one
    group per individual, in first-seen order. *)
Lemma grouping_loop (data : list dict) (vs : list point) :
  Forall2 (fun r v => view r = Ok v) data vs ->
  for_each data group_body [] = Ok (grouped vs).
Proof.
  intros Hviews. rewrite (for_each_views data vs Hviews).
  f_equal. apply fold_step_grouped.
  induction Hviews as [|r v data vs Hv _ IH]; constructor; [|exact IH].
  exact (view_hashable r v Hv).
Qed.

Lemma mixed_views : Forall2 (fun r v => view r = Ok v) mixed_records mixed_points.
Proof. repeat constructor. Qed.

Lemma fold_plot_lines (groups : list (pyval * group)) :
  forall f,
    Plot.lines (fold_left plot_body groups f)
    = Plot.lines f ++ map line_of groups.
Proof.
  induction groups as [|[n g] groups IH]; intros f; simpl.
  - rewrite app_nil_r. reflexivity.
  - rewrite IH. simpl. rewrite <- app_assoc. reflexivity.
Qed.

Lemma draw_lines (groups : list (pyval * group)) :
  Plot.lines (draw groups) = map line_of groups.
Proof. unfold draw. simpl. rewrite fold_plot_lines. reflexivity. Qed.

(** X2: when the renderer returns normally for a path it saves as a PNG
    file, on records that each have a hashable individual, a color, a date
    in ISO form and an integer cumulative_points, the figure in the file it
    wrote has one line per individual, in the order in which the
    individuals first appear: the line is labelled with the name as a
    string, holds the dates and totals of that individual's records in the
    order of the sequence, and has the colour of the individual's first
    record. *)
Theorem chart_lines :
  forall data vs path w w',
    Forall2 (fun r v => view r = Ok v) data vs ->
    Forall (fun v => is_int (p_points v) = true) vs ->
    Plot.format_of path = "png" ->
    create_line_chart data path w = (Ok tt, w') ->
    exists img,
      files w' !! Plot.target path = Some (Image img)
      /\ Plot.lines (Plot.fig img)
         = map (fun n =>
                  Plot.mk_line
                    (map p_date (points_named n vs))
                    (map p_points (points_named n vs))
                    (match points_named n vs with
                     | v :: _ => p_color v
                     | [] => PStr ""
                     end)
                    "o" (Plot.Qmake 5 2) 6 (PStr (py_str n)))
               (first_seen (map p_name vs)).
Proof.
  intros data vs path w w' Hviews _ Hf.
  rewrite (create_line_chart_png _ _ _ Hf), (grouping_loop data vs Hviews).
  destruct (open_w_cases (Plot.target path) w) as [[e He] | Hok].
  - rewrite He. discriminate.
  - rewrite Hok. intros [= <-].
    eexists. split; [apply lookup_insert_eq|].
    unfold chart_image. cbn [Plot.fig]. rewrite draw_lines.
    unfold grouped. rewrite map_map. reflexivity.
Qed.

Lemma chart_lines_witness :
  exists img,
    files (snd (create_line_chart mixed_records "chart.png" empty_world))
      !! "chart.png" = Some (Image img)
    /\ map (fun l => (Plot.label l, Plot.line_color l, Plot.ydata l))
           (Plot.lines (Plot.fig img))
       = [ (PStr "a", PStr "#111111", [PInt 1; PInt 3]);
           (PStr "b", PStr "#222222", [PInt 5]) ].
Proof.
  destruct (chart_lines mixed_records mixed_points "chart.png" empty_world
              (snd (create_line_chart mixed_records "chart.png" empty_world))
              mixed_views)
    as (img & Hfile & Hlines).
  - repeat constructor.
  - reflexivity.
  - vm_compute. reflexivity.
  - exists img. split; [exact Hfile|]. rewrite Hlines. reflexivity.
Defined.

Lemma count_named (F : list pyval) (v : point) :
  NoDup F -> p_name v ∈ F -> hashable (p_name v) = true ->
  sum_list (map (fun n => if key_eqb (p_name v) n then 1%nat else 0%nat) F) = 1%nat.
Proof.
  intros Hdup Hin Hh. induction Hdup as [|m F Hm Hdup IH]; simpl.
  - apply elem_of_nil in Hin. contradiction.
  - destruct (key_eqb (p_name v) m) eqn:Heq.
    + apply key_eqb_eq in Heq. subst m. f_equal.
      clear IH Hin. induction F as [|m' F IH]; [reflexivity|]. simpl.
      destruct (key_eqb (p_name v) m') eqn:Heq'.
      * apply key_eqb_eq in Heq'. subst m'. exfalso. apply Hm. constructor.
      * apply IH.
        -- intros H. apply Hm. constructor. exact H.
        -- apply NoDup_cons in Hdup as [_ Hdup]. exact Hdup.
    + apply elem_of_cons in Hin as [Hm' | Hin].
      * rewrite <- Hm', key_eqb_refl in Heq by exact Hh. discriminate.
      * exact (IH Hin).
Qed.

Lemma sum_points_named (F : list pyval) (vs : list point) :
  NoDup F ->
  Forall (fun v => p_name v ∈ F /\ hashable (p_name v) = true) vs ->
  sum_list (map (fun n => length (points_named n vs)) F) = length vs.
Proof.
  intros Hdup. induction 1 as [|v vs [Hin Hh] _ IH]; simpl.
  - induction F as [|m F IHF]; [reflexivity|]. simpl. apply IHF.
    apply NoDup_cons in Hdup as [_ Hdup]. exact Hdup.
  - transitivity
      (sum_list (map (fun n => if key_eqb (p_name v) n then 1%nat else 0%nat) F)
       + sum_list (map (fun n => length (points_named n vs)) F))%nat.
    + clear. induction F as [|m F IHF]; [reflexivity|]. simpl.
      rewrite IHF. unfold points_named. simpl.
      destruct (key_eqb (p_name v) m); simpl; lia.
    + rewrite IH, (count_named F v Hdup Hin Hh). reflexivity.
Qed.

(** X3: the grouping loop puts every record in exactly one group: the
    group names are pairwise distinct, each group has as many dates as
    totals and at least one, and the groups hold as many points as there are
    records. *)
Theorem chart_point_counts :
  forall data vs,
    Forall2 (fun r v => view r = Ok v) data vs ->
    exists groups,
      for_each data group_body [] = Ok groups
      /\ NoDup (map fst groups)
      /\ Forall (fun kg =>
                   length (g_dates (snd kg)) = length (g_points (snd kg))
                   /\ (0 < length (g_points (snd kg)))%nat) groups
      /\ plotted groups = length data.
Proof.
  intros data vs Hviews. exists (grouped vs).
  split; [exact (grouping_loop data vs Hviews)|].
  assert (Hh : Forall (fun v => hashable (p_name v) = true) vs).
  { clear -Hviews. induction Hviews as [|r v data vs Hv _ IH]; constructor;
      [exact (view_hashable r v Hv) | exact IH]. }
  assert (Hdup : NoDup (first_seen (map p_name vs)))
    by (apply first_seen_NoDup, Forall_fmap; exact Hh).
  split_and!.
  - unfold grouped. rewrite map_map. simpl. rewrite map_id. exact Hdup.
  - unfold grouped. apply Forall_fmap, Forall_forall. intros n Hn. simpl.
    rewrite !length_map. split; [reflexivity|].
    apply (proj1 (first_seen_elem _ _)) in Hn.
    assert (Hhn : hashable n = true).
    { apply list_elem_of_fmap in Hn as (v & -> & Hv).
      rewrite Forall_forall in Hh. exact (Hh v Hv). }
    destruct (points_named_cons n vs Hhn Hn) as (v & rest & ->). simpl. lia.
  - unfold plotted, grouped. rewrite map_map. simpl.
    rewrite (Forall2_length _ _ _ Hviews).
    rewrite <- (sum_points_named (first_seen (map p_name vs)) vs Hdup).
    + f_equal. apply map_ext. intros n. apply length_map.
    + rewrite Forall_forall in Hh |- *. intros v Hv. split; [|exact (Hh v Hv)].
      apply first_seen_elem, list_elem_of_fmap. eauto.
Qed.

Lemma chart_point_counts_witness :
  exists groups,
    for_each mixed_records group_body [] = Ok groups
    /\ plotted groups = 3%nat.
Proof.
  destruct (chart_point_counts mixed_records mixed_points mixed_views)
    as (groups & Hrun & _ & _ & Hcount).
  exists groups. split; [exact Hrun | exact Hcount].
Defined.

Lemma take_digits_length (n : nat) :
  forall s acc v s',
    Iso.take_digits n s acc = Some (v, s') ->
    String.length s = (n + String.length s')%nat.
Proof.
  induction n as [|n IH]; intros s acc v s' H; simpl in H.
  - injection H as _ <-. reflexivity.
  - destruct s as [|c s]; [discriminate|].
    destruct (Json.digit_value c); [|discriminate].
    apply IH in H. simpl. rewrite H. reflexivity.
Qed.

Lemma expect_length (c : ascii) (s s' : string) :
  Iso.expect c s = Some s' -> String.length s = S (String.length s').
Proof.
  destruct s as [|c' s]; [discriminate|]. simpl.
  destruct (Ascii.eqb c c'); [|discriminate]. intros [= <-]. reflexivity.
Qed.

Lemma parse_date_length (s : string) y m d rest :
  Iso.parse_date s = Some (y, m, d, rest) ->
  String.length s = (10 + String.length rest)%nat.
Proof.
  unfold Iso.parse_date. intros H.
  apply bind_Some in H as ([y' s1] & E1 & H).
  apply bind_Some in H as (s2 & E2 & H).
  apply bind_Some in H as ([m' s3] & E3 & H).
  apply bind_Some in H as (s4 & E4 & H).
  apply bind_Some in H as ([d' s5] & E5 & H).
  injection H as _ _ _ <-.
  apply take_digits_length in E1, E3, E5. apply expect_length in E2, E4.
  lia.
Qed.

(** A string of fewer than seven characters holds no date. *)
Lemma fromisoformat_short (s : string) :
  (String.length s < 7)%nat -> Iso.fromisoformat (PStr s) = Iso.bad.
Proof.
  intros Hlen. unfold Iso.fromisoformat.
  destruct (Iso.parse_date s) as [[[[y m] d] rest]|] eqn:E; [|reflexivity].
  apply parse_date_length in E. lia.
Qed.

(** X4: the renderer stops at the first record it cannot read, before it
    opens the output file: a record without the key individual, date or
    cumulative_points raises the KeyError of that key, a date that is no
    string raises TypeError, a date of fewer than seven characters raises
    ValueError, and the world is left as it was, whatever records follow. *)
Theorem renderer_missing_key :
  forall pre vs r post path w,
    Forall2 (fun r v => view r = Ok v) pre vs ->
    (getitem r "individual" = Raise (KeyError "individual") ->
     create_line_chart (pre ++ r :: post) path w
     = (Raise (KeyError "individual"), w))
    /\ (forall name color,
          getitem r "individual" = Ok name -> hashable name = true ->
          getitem r "color" = Ok color ->
          getitem r "date" = Raise (KeyError "date") ->
          create_line_chart (pre ++ r :: post) path w
          = (Raise (KeyError "date"), w))
    /\ (forall name color date,
          getitem r "individual" = Ok name -> hashable name = true ->
          getitem r "color" = Ok color ->
          getitem r "date" = Ok date -> (forall s, date <> PStr s) ->
          create_line_chart (pre ++ r :: post) path w
          = (Raise (TypeError "fromisoformat: argument must be str"), w))
    /\ (forall name color s,
          getitem r "individual" = Ok name -> hashable name = true ->
          getitem r "color" = Ok color ->
          getitem r "date" = Ok (PStr s) -> (String.length s < 7)%nat ->
          exists msg,
            create_line_chart (pre ++ r :: post) path w
            = (Raise (ValueError msg), w))
    /\ (forall name color date t,
          getitem r "individual" = Ok name -> hashable name = true ->
          getitem r "color" = Ok color ->
          getitem r "date" = Ok date -> Iso.fromisoformat date = Ok t ->
          getitem r "cumulative_points" = Raise (KeyError "cumulative_points") ->
          create_line_chart (pre ++ r :: post) path w
          = (Raise (KeyError "cumulative_points"), w)).
Proof.
  intros pre vs r post path w Hviews.
  assert (Hstop : forall e,
            group_body r (grouped vs) = Raise e ->
            create_line_chart (pre ++ r :: post) path w = (Raise e, w)).
  { intros e Hbody. rewrite create_line_chart_run, for_each_app.
    rewrite (grouping_loop pre vs Hviews). simpl. rewrite Hbody. reflexivity. }
  assert (Hdate : forall name color date e,
            getitem r "individual" = Ok name -> hashable name = true ->
            getitem r "color" = Ok color ->
            getitem r "date" = Ok date -> Iso.fromisoformat date = Raise e ->
            create_line_chart (pre ++ r :: post) path w = (Raise e, w)).
  { intros name color date e Hn Hh Hc Hd He. apply Hstop. unfold group_body.
    rewrite Hn. simpl. rewrite Hh. simpl.
    destruct (contains (grouped vs) name); simpl; rewrite ?Hc; simpl;
      rewrite Hd; simpl; rewrite He; reflexivity. }
  split_and!.
  - intros Hn. apply Hstop. unfold group_body. rewrite Hn. reflexivity.
  - intros name color Hn Hh Hc Hd. apply Hstop. unfold group_body.
    rewrite Hn. simpl. rewrite Hh. simpl.
    destruct (contains (grouped vs) name); simpl; rewrite ?Hc; simpl;
      rewrite Hd; reflexivity.
  - intros name color date Hn Hh Hc Hd Hstr.
    apply (Hdate name color date _ Hn Hh Hc Hd).
    destruct date as [z|s|l|d]; try reflexivity.
    exfalso. exact (Hstr s eq_refl).
  - intros name color s Hn Hh Hc Hd Hlen. eexists.
    apply (Hdate name color (PStr s) _ Hn Hh Hc Hd).
    apply fromisoformat_short, Hlen.
  - intros name color date t Hn Hh Hc Hd Ht Hp. apply Hstop. unfold group_body.
    rewrite Hn. simpl. rewrite Hh. simpl.
    destruct (contains (grouped vs) name); simpl; rewrite ?Hc; simpl;
      rewrite Hd; simpl; rewrite Ht; simpl; rewrite Hp; reflexivity.
Qed.

Lemma renderer_missing_key_witness :
  create_line_chart
    (mixed_records
     ++ [("individual", PStr "a"); ("color", PStr "#111111");
         ("cumulative_points", PInt 4)] :: mixed_records)
    "chart.png" empty_world
  = (Raise (KeyError "date"), empty_world).
Proof.
  exact (proj1 (proj2
    (renderer_missing_key mixed_records mixed_points
       [("individual", PStr "a"); ("color", PStr "#111111");
        ("cumulative_points", PInt 4)]
       mixed_records "chart.png" empty_world mixed_views))
    (PStr "a") (PStr "#111111") eq_refl eq_refl eq_refl eq_refl).
Defined.

(** X5: the colour of a record is read only when its individual is seen
    for the first time.  A later record of a known individual needs no color
    key and cannot change the colour of the group; a record of a new
    individual without the key raises KeyError of color. *)
Theorem color_read_once :
  forall data vs r name,
    Forall2 (fun r v => view r = Ok v) data vs ->
    getitem r "individual" = Ok name ->
    hashable name = true ->
    (name ∈ map p_name vs ->
     forall date t points,
       getitem r "date" = Ok date -> Iso.fromisoformat date = Ok t ->
       getitem r "cumulative_points" = Ok points ->
       for_each (data ++ [r]) group_body []
       = Ok (map (fun kg =>
                    if key_eqb (fst kg) name
                    then (fst kg,
                          mk_group (g_dates (snd kg) ++ [t])
                                   (g_points (snd kg) ++ [points])
                                   (g_color (snd kg)))
                    else kg)
                 (grouped vs)))
    /\ (name ∉ map p_name vs ->
        getitem r "color" = Raise (KeyError "color") ->
        for_each (data ++ [r]) group_body [] = Raise (KeyError "color")).
Proof.
  intros data vs r name Hviews Hn Hh.
  assert (Hhs : Forall (fun n => hashable n = true) (map p_name vs)).
  { apply Forall_fmap. clear -Hviews.
    induction Hviews as [|r v data vs Hv _ IH]; constructor;
      [exact (view_hashable r v Hv) | exact IH]. }
  pose proof (first_seen_NoDup _ Hhs) as Hdup.
  rewrite for_each_app, (grouping_loop data vs Hviews). simpl.
  unfold group_body. rewrite Hn. simpl. rewrite Hh. simpl.
  assert (Hcont : contains (grouped vs) name
                  = existsb (fun m => key_eqb m name) (first_seen (map p_name vs)))
    by apply contains_map.
  rewrite !Hcont.
  split.
  - intros Hin date t points Hd Ht Hp.
    assert (He : existsb (fun m => key_eqb m name) (first_seen (map p_name vs))
                 = true).
    { apply existsb_exists. exists name.
      split; [apply list_elem_of_In, first_seen_elem, Hin
             | apply key_eqb_refl, Hh]. }
    rewrite He. simpl. rewrite Hd. simpl. rewrite Ht. simpl. rewrite Hp. simpl.
    f_equal. unfold grouped.
    rewrite (update_map _ _ name _ Hdup).
    rewrite (update_map (fun m => if key_eqb m name then _ else _) _ name _ Hdup).
    rewrite map_map. apply map_ext. intros m. simpl.
    destruct (key_eqb m name); reflexivity.
  - intros Hout Hc.
    assert (He : existsb (fun m => key_eqb m name) (first_seen (map p_name vs))
                 = false).
    { destruct (existsb _ _) eqn:He; [|reflexivity].
      apply existsb_key in He. apply (proj1 (first_seen_elem _ _)) in He.
      contradiction. }
    rewrite He. simpl. rewrite Hc. reflexivity.
Qed.

Lemma color_read_once_witness :
  for_each (mixed_records
            ++ [[("individual", PStr "b"); ("date", PStr "2024-01-08");
                 ("cumulative_points", PInt 9)]])
           group_body []
  = Ok [ (PStr "a",
          mk_group [Datetime.mk_datetime 2024 1 1 0 0 0 0;
                    Datetime.mk_datetime 2024 1 8 0 0 0 0]
                   [PInt 1; PInt 3] (PStr "#111111"));
         (PStr "b",
          mk_group [Datetime.mk_datetime 2024 1 1 0 0 0 0;
                    Datetime.mk_datetime 2024 1 8 0 0 0 0]
                   [PInt 5; PInt 9] (PStr "#222222")) ].
Proof.
  refine (eq_trans
    (proj1 (color_read_once mixed_records mixed_points
              [("individual", PStr "b"); ("date", PStr "2024-01-08");
               ("cumulative_points", PInt 9)]
              (PStr "b") mixed_views eq_refl eq_refl)
       _ (PStr "2024-01-08") (Datetime.mk_datetime 2024 1 8 0 0 0 0) (PInt 9)
       eq_refl eq_refl eq_refl) _).
  - simpl. constructor 2. constructor 1.
  - reflexivity.
Defined.



(** ** The exporter on any records *)

(** X7: for every sequence of records with distinct keys and string or
    integer values, the empty sequence and empty records included, a
    successful export leaves a file whose text [json.loads] decodes to that
    same sequence, whatever the file held before. *)
Theorem exporter_decodes_any_records :
  forall data path w w',
    Forall flat data ->
    save_data_as_json data path w = (Ok tt, w') ->
    exists text,
      files w' !! path = Some (Text text)
      /\ Json.loads text = Ok (PList (map PDict data)).
Proof.
  intros data path w w' Hflat Hsave.
  destruct (save_data_as_json_cases data path w)
    as [[e He] | (w2 & Hrun & Hfiles & _)]; [congruence|].
  rewrite Hrun in Hsave. injection Hsave as <-.
  exists (Json.dumps 2 (PList (map PDict data))). split.
  - rewrite Hfiles. apply lookup_insert_eq.
  - apply JsonFacts.loads_dumps_records, Hflat.
Qed.

Lemma exporter_decodes_any_records_witness :
  exists text,
    files (snd (save_data_as_json odd_records "out.json"
                  (mk_world ∅ {["out.json" := Text "old"]} ∅ [])))
      !! "out.json" = Some (Text text)
    /\ Json.loads text = Ok (PList (map PDict odd_records)).
Proof.
  apply (exporter_decodes_any_records odd_records "out.json"
           (mk_world ∅ {["out.json" := Text "old"]} ∅ [])).
  - assert (Hflat : forall d, NoDup (keys d) ->
                      Forall (fun kv => scalar (snd kv)) d -> flat d)
      by (intros d H1 H2; exact (conj H1 H2)).
    unfold odd_records.
    constructor; [|constructor; [|constructor; [|constructor]]];
      (apply Hflat; [apply (bool_decide_unpack _); vm_compute; reflexivity
                    | repeat constructor]).
  - vm_compute. reflexivity.
Defined.






Module AsciiFacts.
Import Json.

#[local] Arguments String.append !_ _ / : simpl nomatch.

Lemma plain_append (a b : string) :
  plain_text (a +:+ b) = plain_text a && plain_text b.
Proof.
  induction a as [|c a IH]; simpl; [reflexivity|].
  rewrite IH, andb_assoc. reflexivity.
Qed.

Lemma plain_escape_char (c : ascii) : plain_text (escape_char c) = true.
Proof. destruct c as [[|] [|] [|] [|] [|] [|] [|] [|]]; reflexivity. Qed.

Lemma plain_escape (s : string) : plain_text (escape s) = true.
Proof.
  induction s as [|c s IH]; simpl; [reflexivity|].
  rewrite plain_append, plain_escape_char, IH. reflexivity.
Qed.

Lemma plain_encode_string (s : string) : plain_text (encode_string s) = true.
Proof.
  unfold encode_string. simpl. rewrite plain_append, plain_escape. reflexivity.
Qed.

Lemma plain_digit (n : Z) : plain_char (digit_char (n mod 10)) = true.
Proof.
  pose proof (Z.mod_pos_bound n 10 eq_refl) as H.
  assert (n mod 10 = 0 \/ n mod 10 = 1 \/ n mod 10 = 2 \/ n mod 10 = 3
          \/ n mod 10 = 4 \/ n mod 10 = 5 \/ n mod 10 = 6 \/ n mod 10 = 7
          \/ n mod 10 = 8 \/ n mod 10 = 9) as Hc by lia.
  repeat destruct Hc as [-> | Hc]; try rewrite Hc; reflexivity.
Qed.

Lemma plain_decimal_aux (fuel : nat) :
  forall n acc, plain_text acc = true -> plain_text (decimal_aux fuel n acc) = true.
Proof.
  induction fuel as [|fuel IH]; intros n acc Hacc; simpl.
  - rewrite plain_digit, Hacc. reflexivity.
  - destruct (n <? 10).
    + simpl. rewrite plain_digit, Hacc. reflexivity.
    + apply IH. simpl. rewrite plain_digit, Hacc. reflexivity.
Qed.

Lemma plain_int_repr (z : Z) : plain_text (int_repr z) = true.
Proof.
  unfold int_repr, decimal. destruct (z <? 0); simpl;
    apply plain_decimal_aux; reflexivity.
Qed.

Lemma plain_spaces (n : nat) : plain_text (spaces n) = true.
Proof. induction n as [|n IH]; simpl; [reflexivity | exact IH]. Qed.

Lemma plain_newline_indent (indent level : nat) :
  plain_text (newline_indent indent level) = true.
Proof.
  unfold newline_indent, LF. rewrite plain_append, plain_spaces. reflexivity.
Qed.

Lemma plain_join (sep : string) (chunks : list string) :
  plain_text sep = true ->
  Forall (fun c => plain_text c = true) chunks ->
  plain_text (join sep chunks) = true.
Proof.
  intros Hsep. induction 1 as [|c cs Hc Hcs IH]; [reflexivity|].
  destruct cs as [|c' cs]; [exact Hc|].
  change (join sep (c :: c' :: cs)) with (c +:+ sep +:+ join sep (c' :: cs)).
  rewrite !plain_append, Hc, Hsep, IH. reflexivity.
Qed.

(** Induction on values that reaches inside lists and dicts. *)
Lemma pyval_induction (P : pyval -> Prop) :
  (forall z, P (PInt z)) ->
  (forall s, P (PStr s)) ->
  (forall l, Forall P l -> P (PList l)) ->
  (forall d, Forall (fun kv => P (snd kv)) d -> P (PDict d)) ->
  forall v, P v.
Proof.
  intros Hint Hstr Hlist Hdict.
  fix IH 1. intros [z|s|l|d].
  - apply Hint.
  - apply Hstr.
  - apply Hlist. induction l as [|v l IHl]; constructor; [apply IH | exact IHl].
  - apply Hdict. induction d as [|[k v] d IHd]; constructor;
      [apply IH | exact IHd].
Qed.

#[local] Arguments newline_indent : simpl never.

Lemma plain_encode (indent : nat) (v : pyval) :
  forall level, plain_text (encode indent level v) = true.
Proof.
  induction v as [z|s|l IH|d IH] using pyval_induction; intros level.
  - apply plain_int_repr.
  - apply plain_encode_string.
  - destruct l as [|v l]; [reflexivity|].
    change (encode indent level (PList (v :: l)))
      with ("[" +:+ newline_indent indent (S level)
            +:+ join ("," +:+ newline_indent indent (S level))
                     (map (encode indent (S level)) (v :: l))
            +:+ newline_indent indent level +:+ "]").
    rewrite !plain_append, !plain_newline_indent.
    rewrite plain_join; [reflexivity | |].
    + rewrite plain_append, plain_newline_indent. reflexivity.
    + apply Forall_fmap. eapply Forall_impl; [exact IH|].
      intros x Hx. unfold compose. apply Hx.
  - destruct d as [|kv d]; [reflexivity|].
    change (encode indent level (PDict (kv :: d)))
      with ("{" +:+ newline_indent indent (S level)
            +:+ join ("," +:+ newline_indent indent (S level))
                     (map (fun kv => encode_string (fst kv) +:+ ": "
                                     +:+ encode indent (S level) (snd kv))
                          (kv :: d))
            +:+ newline_indent indent level +:+ "}").
    rewrite !plain_append, !plain_newline_indent.
    rewrite plain_join; [reflexivity | |].
    + rewrite plain_append, plain_newline_indent. reflexivity.
    + apply Forall_fmap. eapply Forall_impl; [exact IH|].
      intros x Hx. unfold compose.
      rewrite !plain_append, plain_encode_string, Hx. reflexivity.
Qed.

End AsciiFacts.

(** X8: the text the exporter writes is plain ASCII for any records,
    nested values included: every character is a new line or lies between
    the space and the tilde, other characters being written as escapes. *)
Theorem exporter_writes_ascii :
  forall data path w w',
    save_data_as_json data path w = (Ok tt, w') ->
    exists text,
      files w' !! path = Some (Text text) /\ plain_text text = true.
Proof.
  intros data path w w' Hsave.
  destruct (save_data_as_json_cases data path w)
    as [[e He] | (w2 & Hrun & Hfiles & _)]; [congruence|].
  rewrite Hrun in Hsave. injection Hsave as <-.
  exists (Json.dumps 2 (PList (map PDict data))). split.
  - rewrite Hfiles. apply lookup_insert_eq.
  - apply AsciiFacts.plain_encode.
Qed.

Lemma exporter_writes_ascii_witness :
  exists text,
    files (snd (save_data_as_json accented_records "out.json" empty_world))
      !! "out.json" = Some (Text text)
    /\ plain_text text = true.
Proof.
  apply (exporter_writes_ascii accented_records "out.json" empty_world).
  vm_compute. reflexivity.
Defined.

(** ** Runs of main *)

(** What [os.makedirs] does for the output directory. *)
Lemma makedirs_output_dir_run (w : world) :
  Os.makedirs output_dir true w
  = if Os.isdir w output_dir then (Ok tt, w)
    else if Os.isfile w output_dir then (Raise (FileExistsError output_dir), w)
    else if Os.locked w "" then (Raise (PermissionError output_dir), w)
    else (Ok tt,
          mk_world ({[output_dir]} ∪ dirs w) (files w) (readonly w) (stdout w)).
Proof.
  unfold Os.makedirs, output_dir. simpl.
  rewrite bind_run. unfold ask. rewrite bind_run.
  unfold mret, py_ret, try_except, Os.mkdir, Os.exists_.
  change (String.eqb "charts" "") with false. cbv iota.
  destruct (Os.isdir w "charts") eqn:Hd; simpl.
  - rewrite bind_run. unfold ask. simpl. rewrite Hd. reflexivity.
  - destruct (Os.isfile w "charts") eqn:Hf; simpl.
    + rewrite bind_run. unfold ask. simpl. rewrite Hd. reflexivity.
    + change (Os.parent_ok w "charts") with true. simpl.
      change (Path.dirname "charts") with "".
      destruct (Os.locked w "") eqn:Hl; simpl; [|reflexivity].
      rewrite bind_run. unfold ask. simpl. rewrite Hd. reflexivity.
Qed.

Lemma isdir_after_mkdir (w : world) (p : string) fs ro out :
  p <> output_dir ->
  Os.isdir (mk_world ({[output_dir]} ∪ dirs w) fs ro out) p = Os.isdir w p.
Proof.
  intros Hp. unfold Os.isdir. simpl. f_equal.
  apply bool_decide_ext. rewrite elem_of_union, elem_of_singleton. tauto.
Qed.

Lemma create_line_chart_ok (data : list dict) (groups : list (pyval * group))
    (path : string) (w : world) :
  for_each data group_body [] = Ok groups ->
  snd (Path.splitext path) = ".png" ->
  can_write w path ->
  create_line_chart data path w
  = (Ok tt,
     mk_world (dirs w) (<[path := Image (chart_image groups)]> (files w))
              (readonly w) (stdout w ++ ["Chart saved to: " +:+ path])).
Proof.
  intros Hg Hext (Hp & Hd & Hpar & Hl).
  destruct (png_extension path Hext) as [Hf Ht].
  rewrite (create_line_chart_png _ _ _ Hf), Hg, Ht.
  rewrite (open_w_succeeds path w Hp Hd Hpar Hl).
  simpl. rewrite insert_insert_eq. reflexivity.
Qed.

Lemma save_data_as_json_ok (data : list dict) (path : string) (w : world) :
  can_write w path ->
  save_data_as_json data path w
  = (Ok tt,
     mk_world (dirs w)
       (<[path := Text (Json.dumps 2 (PList (map PDict data)))]> (files w))
       (readonly w) (stdout w ++ ["Data saved to: " +:+ path])).
Proof.
  intros (Hp & Hd & Hpar & Hl).
  rewrite save_data_as_json_run, (open_w_succeeds path w Hp Hd Hpar Hl).
  unfold Os.fwrite. simpl. rewrite lookup_insert_eq. simpl.
  rewrite insert_insert_eq. reflexivity.
Qed.

(** Under [runnable], [main] returns normally and leaves [after_main]. *)
Lemma main_runnable (w : world) :
  runnable w = true -> main w = (Ok tt, after_main w).
Proof.
  unfold runnable. intros H.
  repeat (apply andb_prop in H as [H ?]).
  repeat match goal with
         | E : negb _ = true |- _ => apply negb_true_iff in E
         end.
  set (w1 := mk_world ({[output_dir]} ∪ dirs w) (files w) (readonly w)
                      (stdout (after_banner w))).
  assert (Hmk : Os.makedirs output_dir true (after_banner w) = (Ok tt, w1)).
  { rewrite makedirs_output_dir_run.
    change (Os.isdir (after_banner w) output_dir) with (Os.isdir w output_dir).
    change (Os.isfile (after_banner w) output_dir) with (Os.isfile w output_dir).
    change (Os.locked (after_banner w) "") with (Os.locked w "").
    destruct (Os.isdir w output_dir) eqn:Hd.
    - f_equal. subst w1. unfold after_banner. f_equal. simpl.
      unfold Os.isdir in Hd. apply orb_prop in Hd as [Hd | Hd]; [|discriminate].
      apply bool_decide_eq_true_1 in Hd. symmetry. apply subseteq_union_1_L.
      apply singleton_subseteq_l. exact Hd.
    - simpl in H. apply andb_prop in H as [Hf Hl].
      apply negb_true_iff in Hf, Hl. rewrite Hf, Hl. reflexivity. }
  assert (Hisdir : forall p, p <> output_dir -> Os.isdir w1 p = Os.isdir w p)
    by (intros p Hp; subst w1; apply isdir_after_mkdir, Hp).
  assert (Hcharts : forall fs out,
            Os.isdir (mk_world ({[output_dir]} ∪ dirs w) fs (readonly w) out)
                     output_dir = true).
  { intros fs out. unfold Os.isdir. simpl. apply orb_true_intro. left.
    apply bool_decide_eq_true_2, elem_of_union_l, elem_of_singleton. reflexivity. }
  rewrite main_run, Hmk.
  rewrite (create_line_chart_ok sample sample_groups chart_path w1
             sample_groups_eq eq_refl).
  2:{ split_and!; [discriminate | rewrite Hisdir by discriminate; assumption | |].
      - unfold Os.parent_ok. change (Path.dirname chart_path) with output_dir.
        subst w1. rewrite Hcharts. reflexivity.
      - change (Path.dirname chart_path) with output_dir.
        change (Os.locked w1 ?p) with (Os.locked w p).
        destruct (Os.isfile w1 chart_path); assumption. }
  rewrite save_data_as_json_ok.
  2:{ split_and!; [discriminate | | |].
      - change (Os.isdir ?x data_path) with (Os.isdir w1 data_path).
        rewrite Hisdir by discriminate. assumption.
      - unfold Os.parent_ok. change (Path.dirname data_path) with output_dir.
        subst w1. simpl. rewrite Hcharts. reflexivity.
      - change (Path.dirname data_path) with output_dir.
        match goal with
        | |- Os.locked ?x (if ?b then _ else _) = false =>
            change (Os.locked x ?p) with (Os.locked w p); destruct b
        end; assumption. }
  unfold after_main, after_banner. subst w1. simpl.
  rewrite <- !app_assoc. reflexivity.
Qed.

(** X11: in a world where [charts] is a directory or can be made, the two
    output paths are not directories and nothing to be written is read-only,
    [main] returns normally: [charts] exists, the chart file holds the image
    of the grouped records, the data file holds their JSON text, no other
    file has changed, and exactly six lines have been printed, in order. *)
Theorem main_succeeds :
  forall w,
    runnable w = true ->
    exists data groups w',
      generate_sample_data = Ok data
      /\ for_each data group_body [] = Ok groups
      /\ main w = (Ok tt, w')
      /\ dirs w' = {[output_dir]} ∪ dirs w
      /\ files w'
         = <[data_path := Text (Json.dumps 2 (PList (map PDict data)))]>
             (<[chart_path := Image (chart_image groups)]> (files w))
      /\ readonly w' = readonly w
      /\ stdout w'
         = stdout w
           ++ ["Generating individual point tracking chart...";
               "Chart saved to: charts/individual_points_line_chart.png";
               "Data saved to: charts/point_tracking_data.json";
               "Chart generation completed successfully!";
               "Chart location: charts/individual_points_line_chart.png";
               "Data location: charts/point_tracking_data.json"].
Proof.
  intros w Hrun. exists sample, sample_groups, (after_main w).
  split; [exact generate_sample_data_eq|].
  split; [exact sample_groups_eq|].
  split; [exact (main_runnable w Hrun)|].
  split_and!; reflexivity.
Qed.

Lemma main_succeeds_witness :
  exists w',
    main empty_world = (Ok tt, w')
    /\ dirs w' = {[output_dir]} ∪ dirs empty_world.
Proof.
  destruct (main_succeeds empty_world eq_refl)
    as (data & groups & w' & _ & _ & Hmain & Hdirs & _).
  exists w'. split; [exact Hmain | exact Hdirs].
Defined.

(** X12: [main] can be run again on the world it leaves: the second run
    returns normally too and leaves the same files and directories, each run
    overwriting both outputs in full. *)
Theorem main_twice :
  forall w,
    runnable w = true ->
    exists w1 w2,
      main w = (Ok tt, w1)
      /\ main w1 = (Ok tt, w2)
      /\ files w2 = files w1
      /\ dirs w2 = dirs w1
      /\ readonly w2 = readonly w1.
Proof.
  intros w Hrun.
  assert (Hagain : runnable (after_main w) = true).
  { unfold runnable in *.
    repeat (apply andb_prop in Hrun as [Hrun ?]).
    assert (Hd : Os.isdir (after_main w) output_dir = true).
    { unfold Os.isdir, after_main. simpl. apply orb_true_intro. left.
      apply bool_decide_eq_true_2, elem_of_union_l, elem_of_singleton.
      reflexivity. }
    rewrite Hd. simpl.
    unfold after_main.
    rewrite !isdir_after_mkdir by discriminate.
    change (Os.locked (mk_world ?d ?f (readonly w) ?o) ?p) with (Os.locked w p).
    repeat (apply andb_true_intro; split); assumption. }
  exists (after_main w), (after_main (after_main w)).
  split; [exact (main_runnable w Hrun)|].
  split; [exact (main_runnable (after_main w) Hagain)|].
  split_and!; try reflexivity.
  - unfold after_main. simpl. apply map_eq. intros p.
    destruct (decide (p = data_path)) as [->|Hp1];
      [rewrite !lookup_insert_eq; reflexivity|].
    destruct (decide (p = chart_path)) as [->|Hp2];
      repeat first [ rewrite lookup_insert_eq
                   | rewrite lookup_insert_ne by congruence ];
      reflexivity.
  - unfold after_main. simpl. rewrite (assoc_L (∪)), union_idemp_L. reflexivity.
Qed.

Lemma main_twice_witness :
  exists w1 w2,
    main empty_world = (Ok tt, w1) /\ main w1 = (Ok tt, w2)
    /\ files w2 = files w1.
Proof.
  destruct (main_twice empty_world eq_refl) as (w1 & w2 & H1 & H2 & Hf & _).
  exists w1, w2. split_and!; assumption.
Defined.

(** X13: whatever the outcome, [main] changes no file other than its two
    outputs, no read-only mark, removes no directory and adds none but
    [charts]. *)
Theorem main_frame :
  forall w r w',
    main w = (r, w') ->
    readonly w' = readonly w
    /\ dirs w ⊆ dirs w'
    /\ dirs w' ⊆ {[output_dir]} ∪ dirs w
    /\ forall p, p <> chart_path -> p <> data_path ->
         files w' !! p = files w !! p.
Proof.
  intros w r w' Hmain. rewrite main_run in Hmain.
  assert (Hmk : exists r1 w1,
            Os.makedirs output_dir true (after_banner w) = (r1, w1)
            /\ readonly w1 = readonly w /\ files w1 = files w
            /\ dirs w ⊆ dirs w1 /\ dirs w1 ⊆ {[output_dir]} ∪ dirs w).
  { rewrite makedirs_output_dir_run.
    repeat case_match; eexists _, _; (split; [reflexivity|]); simpl;
      split_and!; try reflexivity;
      first [apply union_subseteq_r | reflexivity]. }
  destruct Hmk as (r1 & w1 & Hmk & Hro1 & Hf1 & Hd1 & Hd1').
  rewrite Hmk in Hmain.
  destruct r1 as [[]|e]; [|injection Hmain as <- <-; split_and!; try done;
                            intros; rewrite Hf1; reflexivity].
  rewrite create_line_chart_chart_path in Hmain.
  destruct (for_each sample group_body []) as [groups|e];
    [|injection Hmain as <- <-; split_and!; try done;
      intros; rewrite Hf1; reflexivity].
  destruct (open_w_cases chart_path w1) as [[e He] | Hok].
  { rewrite He in Hmain. injection Hmain as <- <-. split_and!; try done.
    intros. rewrite Hf1. reflexivity. }
  rewrite Hok in Hmain.
  rewrite save_data_as_json_run in Hmain.
  match type of Hmain with
  | context [Os.open_w data_path ?w2] =>
      destruct (open_w_cases data_path w2) as [[e He] | Hok2];
      [rewrite He in Hmain | rewrite Hok2 in Hmain]
  end.
  - injection Hmain as <- <-. simpl. split_and!; try done.
    intros p Hc Hd. rewrite !lookup_insert_ne by congruence.
    rewrite Hf1. reflexivity.
  - unfold Os.fwrite in Hmain. simpl in Hmain.
    rewrite lookup_insert_eq in Hmain.
    injection Hmain as <- <-. simpl. split_and!; try done.
    intros p Hc Hd. rewrite !lookup_insert_ne by congruence.
    rewrite Hf1. reflexivity.
Qed.

Lemma main_frame_witness :
  files (snd (main (mk_world ∅ {["keep.txt" := Text "kept"]} ∅ [])))
    !! "keep.txt" = Some (Text "kept").
Proof.
  destruct (main_frame (mk_world ∅ {["keep.txt" := Text "kept"]} ∅ [])
              (fst (main (mk_world ∅ {["keep.txt" := Text "kept"]} ∅ [])))
              (snd (main (mk_world ∅ {["keep.txt" := Text "kept"]} ∅ []))))
    as (_ & _ & _ & Hother).
  - apply surjective_pairing.
  - rewrite Hother by discriminate. reflexivity.
Defined.

(** X14: when [charts] is not a directory and cannot be made, because a
    file of that name exists or because the working directory is read-only,
    [main] raises the error of [os.makedirs] after its first printed line
    and writes nothing. *)
Theorem main_cannot_make_directory :
  forall w,
    Os.isdir w output_dir = false ->
    (Os.isfile w output_dir = true ->
     main w = (Raise (FileExistsError output_dir), after_banner w))
    /\ (Os.isfile w output_dir = false -> Os.locked w "" = true ->
        main w = (Raise (PermissionError output_dir), after_banner w)).
Proof.
  intros w Hd. split.
  - intros Hf. rewrite main_run, makedirs_output_dir_run.
    change (Os.isdir (after_banner w) output_dir) with (Os.isdir w output_dir).
    change (Os.isfile (after_banner w) output_dir) with (Os.isfile w output_dir).
    rewrite Hd, Hf. reflexivity.
  - intros Hf Hl. rewrite main_run, makedirs_output_dir_run.
    change (Os.isdir (after_banner w) output_dir) with (Os.isdir w output_dir).
    change (Os.isfile (after_banner w) output_dir) with (Os.isfile w output_dir).
    change (Os.locked (after_banner w) "") with (Os.locked w "").
    rewrite Hd, Hf, Hl. reflexivity.
Qed.

Lemma main_cannot_make_directory_witness :
  main (mk_world ∅ {["charts" := Text "not a directory"]} ∅ [])
  = (Raise (FileExistsError "charts"),
     after_banner (mk_world ∅ {["charts" := Text "not a directory"]} ∅ [])).
Proof.
  exact (proj1 (main_cannot_make_directory
                  (mk_world ∅ {["charts" := Text "not a directory"]} ∅ [])
                  eq_refl) eq_refl).
Defined.

(** X15: after a successful run the two outputs show the same data: the
    data file decodes to the synthesized records, and the chart has one line
    per individual, in the order Alice, Bob, Charlie, Diana, Eve, whose
    label, colour, totals and dates are those of the individual's records. *)
Theorem main_outputs_agree :
  forall w w',
    main w = (Ok tt, w') ->
    exists data img text,
      generate_sample_data = Ok data
      /\ files w' !! chart_path = Some (Image img)
      /\ files w' !! data_path = Some (Text text)
      /\ Json.loads text = Ok (PList (map PDict data))
      /\ map (fun l => (Plot.label l, Ok (Plot.line_color l),
                        map Ok (Plot.ydata l), map Ok (Plot.xdata l)))
             (Plot.lines (Plot.fig img))
         = map (fun name =>
                  (PStr name,
                   hd (Raise (KeyError "color"))
                      (map (fun r => getitem r "color") (series name data)),
                   map (fun r => getitem r "cumulative_points") (series name data),
                   dates_of (series name data)))
               names.
Proof.
  intros w w' Hmain. rewrite main_run in Hmain.
  destruct (Os.makedirs output_dir true (after_banner w)) as [[[]|e] w1];
    [|discriminate].
  rewrite create_line_chart_chart_path, sample_groups_eq in Hmain.
  destruct (open_w_cases chart_path w1) as [[e He] | Hok];
    [rewrite He in Hmain; discriminate|].
  rewrite Hok in Hmain.
  match type of Hmain with
  | context [save_data_as_json sample data_path ?w2] =>
      destruct (save_data_as_json_cases sample data_path w2)
        as [[e He] | (w3 & Hrun & Hf3 & _)];
      [rewrite He in Hmain; discriminate | rewrite Hrun in Hmain]
  end.
  injection Hmain as <-. cbn [files] in Hf3 |- *.
  exists sample, (chart_image sample_groups),
         (Json.dumps 2 (PList (map PDict sample))).
  split; [exact generate_sample_data_eq|].
  rewrite Hf3.
  split; [rewrite lookup_insert_ne by discriminate; apply lookup_insert_eq|].
  split; [apply lookup_insert_eq|].
  split; [apply JsonFacts.loads_dumps_records, sample_flat|].
  vm_compute. reflexivity.
Qed.

Lemma main_outputs_agree_witness :
  exists img text,
    files (after_main empty_world) !! chart_path = Some (Image img)
    /\ files (after_main empty_world) !! data_path = Some (Text text)
    /\ Json.loads text = Ok (PList (map PDict sample)).
Proof.
  destruct (main_outputs_agree empty_world (after_main empty_world)
              (main_runnable empty_world eq_refl))
    as (data & img & text & Hgen & Hc & Hd & Hl & _).
  rewrite generate_sample_data_eq in Hgen. injection Hgen as <-.
  exists img, text. split_and!; assumption.
Defined.
